(** * The Spotify OAuth command-line walkthrough ([src/app.ts])

    A shallow embedding of the authorization-code flow of [app.ts]:
    the loopback callback listener ([getSpotifyAuthCode]) and the
    coordinator ([initializeSpotifyClientWithOAuth]), together with the
    parts of the platform they call (the [URL] class, [URLSearchParams],
    [Number], the one-shot [Promise], [http.Server]) and of the SDK
    ([Client], [withConfiguration], [fetchToken]).

    JavaScript strings are represented by [string], read as the UTF-8
    bytes of the text.  Effects are recorded as a trace of [Event]s, in
    the order in which the program issues them. *)

From Stdlib Require Import List String Ascii NArith ZArith Bool Lia.
From Stdlib Require Import DecimalString DecimalN.
Import ListNotations.
Local Open Scope string_scope.


(* ================================================================== *)
(** * Strings *)

Module Str.

Definition code (c : ascii) : N := N_of_ascii c.

Definition between (lo hi : N) (c : ascii) : bool :=
  ((lo <=? code c) && (code c <=? hi))%N.

Definition is_digit (c : ascii) : bool := between 48 57 c.
Definition is_upper (c : ascii) : bool := between 65 90 c.
Definition is_lower (c : ascii) : bool := between 97 122 c.
Definition is_alpha (c : ascii) : bool := is_upper c || is_lower c.
Definition is_alnum (c : ascii) : bool := is_alpha c || is_digit c.

Definition to_lower (c : ascii) : ascii :=
  if is_upper c then ascii_of_N (code c + 32) else c.

Definition is_empty (s : string) : bool :=
  match s with EmptyString => true | String _ _ => false end.

Fixpoint forallb (p : ascii -> bool) (s : string) : bool :=
  match s with
  | EmptyString => true
  | String c r => p c && forallb p r
  end.

Fixpoint map (f : ascii -> ascii) (s : string) : string :=
  match s with
  | EmptyString => EmptyString
  | String c r => String (f c) (map f r)
  end.

Fixpoint filter (p : ascii -> bool) (s : string) : string :=
  match s with
  | EmptyString => EmptyString
  | String c r => if p c then String c (filter p r) else filter p r
  end.

(** [span stop s] cuts [s] in front of its first character satisfying
    [stop]: the second component is empty or starts with that
    character. *)
Fixpoint span (stop : ascii -> bool) (s : string) : string * string :=
  match s with
  | EmptyString => (EmptyString, EmptyString)
  | String c r =>
      if stop c then (EmptyString, s)
      else let (a, b) := span stop r in (String c a, b)
  end.

(** The pieces of [s] between the occurrences of [sep]. *)
Fixpoint split_on (sep : ascii) (s : string) : list string :=
  match s with
  | EmptyString => [EmptyString]
  | String c r =>
      if Ascii.eqb c sep then EmptyString :: split_on sep r
      else match split_on sep r with
           | [] => [String c EmptyString]
           | p :: ps => String c p :: ps
           end
  end.

(** What follows the last occurrence of [sep], if there is one. *)
Fixpoint after_last (sep : ascii) (s : string) : option string :=
  match s with
  | EmptyString => None
  | String c r =>
      match after_last sep r with
      | Some t => Some t
      | None => if Ascii.eqb c sep then Some r else None
      end
  end.

Definition hex_value (c : ascii) : option N :=
  if is_digit c then Some (code c - 48)%N
  else if between 65 70 c then Some (code c - 55)%N
  else if between 97 102 c then Some (code c - 87)%N
  else None.

Definition hex_digit (n : N) : ascii :=
  if (n <? 10)%N then ascii_of_N (48 + n) else ascii_of_N (55 + n).

End Str.

(* ================================================================== *)
(** * The platform's [URL] class

    [new URL(input)] for an absolute input, after the WHATWG URL
    algorithm: the schemes [http], [https], [ws], [wss] and [ftp] with
    their authority, [file], and every other scheme with an authority
    after [//], with a path, or with an opaque path.  [None] is the
    answer where the constructor throws.  The path is walked over but
    not kept, and a null host is given as the empty one: the program
    reads only [port] and [searchParams].

    The host parser of the algorithm (IDNA, IPv4 and IPv6 literals) is
    not reproduced: it is the parameter [parse_host] of the section, and
    everything below holds for any such parser. *)

Module URL.

Record t := {
  scheme : string;
  host : string;
  port_number : option N;     (* null, or a 16-bit integer *)
  query : option string       (* null, or the percent-encoded query *)
}.

(** Leading and trailing C0 controls and spaces are dropped, as are
    all tabs and newlines. *)
Definition c0_or_space (c : ascii) : bool := (Str.code c <=? 32)%N.
Definition tab_or_newline (c : ascii) : bool :=
  ((Str.code c =? 9) || (Str.code c =? 10) || (Str.code c =? 13))%N.

Fixpoint trim_left (s : string) : string :=
  match s with
  | String c r => if c0_or_space c then trim_left r else s
  | EmptyString => EmptyString
  end.

Fixpoint trim_right (s : string) : string :=
  match s with
  | EmptyString => EmptyString
  | String c r =>
      let r' := trim_right r in
      if Str.is_empty r' && c0_or_space c then EmptyString else String c r'
  end.

Definition clean (input : string) : string :=
  Str.filter (fun c => negb (tab_or_newline c)) (trim_right (trim_left input)).

(** Scheme start state and scheme state. *)
Definition is_scheme_char (c : ascii) : bool :=
  Str.is_alnum c || Ascii.eqb c "+" || Ascii.eqb c "-" || Ascii.eqb c ".".

Fixpoint scheme_state (s : string) : option (string * string) :=
  match s with
  | EmptyString => None
  | String c r =>
      if Ascii.eqb c ":" then Some (EmptyString, r)
      else if is_scheme_char c then
        match scheme_state r with
        | Some (sch, rest) => Some (String (Str.to_lower c) sch, rest)
        | None => None
        end
      else None
  end.

Definition parse_scheme (s : string) : option (string * string) :=
  match s with
  | String c _ => if Str.is_alpha c then scheme_state s else None
  | EmptyString => None
  end.

(** Default ports of the special schemes with an authority. *)
Definition default_port (sch : string) : option N :=
  if String.eqb sch "http" then Some 80%N
  else if String.eqb sch "https" then Some 443%N
  else if String.eqb sch "ws" then Some 80%N
  else if String.eqb sch "wss" then Some 443%N
  else if String.eqb sch "ftp" then Some 21%N
  else None.

Definition is_slash (c : ascii) : bool :=
  Ascii.eqb c "/" || Ascii.eqb c "\".

(** Special authority (ignore) slashes states: every leading slash
    and backslash is skipped. *)
Fixpoint skip_slashes (s : string) : string :=
  match s with
  | String c r => if is_slash c then skip_slashes r else s
  | EmptyString => EmptyString
  end.

Definition ends_authority (c : ascii) : bool :=
  is_slash c || Ascii.eqb c "?" || Ascii.eqb c "#".

(** Host state: the host runs up to the first colon outside square
    brackets; what follows the colon is the port buffer. *)
Fixpoint split_host (inside : bool) (s : string) : string * option string :=
  match s with
  | EmptyString => (EmptyString, None)
  | String c r =>
      if Ascii.eqb c ":" && negb inside then (EmptyString, Some r)
      else
        let inside' :=
          if Ascii.eqb c "[" then true
          else if Ascii.eqb c "]" then false else inside in
        let (h, p) := split_host inside' r in (String c h, p)
  end.

(** Port state: decimal digits only, at most 65535; the default port
    of the scheme is stored as null. *)
Definition decimal (digits : string) : option N :=
  option_map N.of_uint (NilEmpty.uint_of_string digits).

Definition port_state (sch : string) (buffer : string) : option (option N) :=
  if Str.is_empty buffer then Some None
  else
    match decimal buffer with
    | None => None
    | Some p =>
        if (65535 <? p)%N then None
        else match default_port sch with
             | Some d => if (p =? d)%N then Some None else Some (Some p)
             | None => Some (Some p)
             end
    end.

(** The special-query percent-encode set, on bytes. *)
Definition in_special_query_set (c : ascii) : bool :=
  ((Str.code c <=? 32) || (126 <? Str.code c))%N
  || (Str.code c =? 34)%N || Ascii.eqb c "#" || Ascii.eqb c "<"
  || Ascii.eqb c ">" || Ascii.eqb c "'".

Fixpoint percent_encode (inset : ascii -> bool) (s : string) : string :=
  match s with
  | EmptyString => EmptyString
  | String c r =>
      if inset c then
        String "%" (String (Str.hex_digit (Str.code c / 16))
                   (String (Str.hex_digit (Str.code c mod 16))
                      (percent_encode inset r)))
      else String c (percent_encode inset r)
  end.

(** Path, query and fragment states: the query is what stands between
    the first [?] and the first [#] after it. *)
Definition query_state (rest : string) : option string :=
  let (_, from_path_end) :=
    Str.span (fun c => Ascii.eqb c "?" || Ascii.eqb c "#") rest in
  match from_path_end with
  | String "?" r =>
      let (q, _) := Str.span (fun c => Ascii.eqb c "#") r in
      Some (percent_encode in_special_query_set q)
  | _ => None
  end.

(** The query percent-encode set of the other schemes. *)
Definition in_query_set (c : ascii) : bool :=
  ((Str.code c <=? 32) || (126 <? Str.code c))%N
  || (Str.code c =? 34)%N || Ascii.eqb c "#" || Ascii.eqb c "<"
  || Ascii.eqb c ">".

Definition other_query_state (rest : string) : option string :=
  let (_, from_path_end) :=
    Str.span (fun c => Ascii.eqb c "?" || Ascii.eqb c "#") rest in
  match from_path_end with
  | String "?" r =>
      let (q, _) := Str.span (fun c => Ascii.eqb c "#") r in
      Some (percent_encode in_query_set q)
  | _ => None
  end.

(** Outside the special schemes a backslash ends nothing. *)
Definition ends_other_authority (c : ascii) : bool :=
  Ascii.eqb c "/" || Ascii.eqb c "?" || Ascii.eqb c "#".

(** The forbidden host code points and the C0 control percent-encode
    set of the opaque-host parser. *)
Definition forbidden_host (c : ascii) : bool :=
  ((Str.code c =? 0) || (Str.code c =? 9) || (Str.code c =? 10)
   || (Str.code c =? 13) || (Str.code c =? 32))%N
  || Ascii.eqb c "#" || Ascii.eqb c "/" || Ascii.eqb c ":" || Ascii.eqb c "<"
  || Ascii.eqb c ">" || Ascii.eqb c "?" || Ascii.eqb c "@" || Ascii.eqb c "["
  || Ascii.eqb c "\" || Ascii.eqb c "]" || Ascii.eqb c "^" || Ascii.eqb c "|".

Definition in_c0_control_set (c : ascii) : bool :=
  ((Str.code c <? 32) || (126 <? Str.code c))%N.

(** A Windows drive letter: a letter and a colon or a bar. *)
Definition windows_drive (buffer : string) : bool :=
  match buffer with
  | String a (String b EmptyString) =>
      Str.is_alpha a && (Ascii.eqb b ":" || Ascii.eqb b "|")
  | _ => false
  end.

Section Parser.

Variable parse_host : string -> option string.

(** The host parser on a host that is opaque: an address in square
    brackets goes the way of every host, anything else is kept,
    percent-encoded, unless it holds a forbidden code point. *)
Definition opaque_host (h : string) : option string :=
  match h with
  | String "[" _ => parse_host h
  | _ =>
      if Str.forallb (fun c => negb (forbidden_host c)) h
      then Some (percent_encode in_c0_control_set h)
      else None
  end.

(** Authority, host and port states of a scheme that is not special:
    the host may be empty, but not before a port nor after
    credentials. *)
Definition other_authority_state (sch : string) (s : string) : option t :=
  let (authority, rest) := Str.span ends_other_authority s in
  let (at_seen, hostport) :=
    match Str.after_last "@" authority with
    | Some hp => (true, hp)
    | None => (false, authority)
    end in
  let (h, buffer) := split_host false hostport in
  if Str.is_empty h && (at_seen || match buffer with Some _ => true | None => false end)
  then None
  else
    match opaque_host h with
    | None => None
    | Some hst =>
        match port_state sch (match buffer with Some b => b | None => EmptyString end) with
        | None => None
        | Some p =>
            Some {| scheme := sch; host := hst; port_number := p;
                    query := other_query_state rest |}
        end
    end.

(** Path or authority state and opaque path state: an authority after
    two slashes, else no host and no port. *)
Definition other_state (sch : string) (rest : string) : option t :=
  match rest with
  | String "/" (String "/" r) => other_authority_state sch r
  | _ => Some {| scheme := sch; host := EmptyString; port_number := None;
                 query := other_query_state rest |}
  end.

(** File, file slash and file host states: a host after two slashes,
    unless it is a drive letter, and never a port. *)
Definition file_state (rest : string) : option t :=
  match rest with
  | String a (String b r) =>
      if is_slash a && is_slash b then
        let (buffer, rest') := Str.span ends_authority r in
        if windows_drive buffer || Str.is_empty buffer then
          Some {| scheme := "file"; host := EmptyString; port_number := None;
                  query := query_state rest' |}
        else
          match parse_host buffer with
          | None => None
          | Some hst =>
              Some {| scheme := "file";
                      host := if String.eqb hst "localhost" then EmptyString else hst;
                      port_number := None; query := query_state rest' |}
          end
      else Some {| scheme := "file"; host := EmptyString; port_number := None;
                   query := query_state rest |}
  | _ => Some {| scheme := "file"; host := EmptyString; port_number := None;
                 query := query_state rest |}
  end.

Definition authority_state (sch : string) (s : string) : option t :=
  let (authority, rest) := Str.span ends_authority s in
  let hostport :=
    match Str.after_last "@" authority with
    | Some hp => hp
    | None => authority
    end in
  let (h, buffer) := split_host false hostport in
  if Str.is_empty h then None
  else
    match parse_host h with
    | None => None
    | Some hst =>
        match port_state sch (match buffer with Some b => b | None => EmptyString end) with
        | None => None
        | Some p =>
            Some {| scheme := sch; host := hst; port_number := p;
                    query := query_state rest |}
        end
    end.

(** [new URL(input)]: [None] where the constructor throws. *)
Definition parse (input : string) : option t :=
  match parse_scheme (clean input) with
  | None => None
  | Some (sch, rest) =>
      match default_port sch with
      | None =>
          if String.eqb sch "file" then file_state rest else other_state sch rest
      | Some _ => authority_state sch (skip_slashes rest)
      end
  end.

End Parser.

(** The [port] getter: the empty string for null, else the decimal
    digits. *)
Definition port (u : t) : string :=
  match port_number u with
  | None => EmptyString
  | Some p => NilEmpty.string_of_uint (N.to_uint p)
  end.

(** [application/x-www-form-urlencoded] parsing, behind
    [searchParams].  The decoded bytes are kept as they are: the
    replacement of ill-formed UTF-8 by U+FFFD is not modelled, so the
    result is the text [searchParams] gives whenever the decoded bytes
    are well-formed UTF-8, as every ASCII text is. *)
Fixpoint percent_decode (s : string) : string :=
  match s with
  | EmptyString => EmptyString
  | String c r =>
      match r with
      | String h (String l rest) =>
          if Ascii.eqb c "%" then
            match Str.hex_value h, Str.hex_value l with
            | Some a, Some b =>
                String (ascii_of_N (16 * a + b)) (percent_decode rest)
            | _, _ => String c (percent_decode r)
            end
          else String c (percent_decode r)
      | _ => String c (percent_decode r)
      end
  end.

Definition form_decode (s : string) : string :=
  percent_decode (Str.map (fun c => if Ascii.eqb c "+" then " "%char else c) s).

Definition parse_pair (piece : string) : string * string :=
  let (name, r) := Str.span (fun c => Ascii.eqb c "=") piece in
  (form_decode name,
   form_decode (match r with String _ v => v | EmptyString => EmptyString end)).

Definition urlencoded_parse (q : string) : list (string * string) :=
  List.map parse_pair
    (List.filter (fun p => negb (Str.is_empty p)) (Str.split_on "&" q)).

Definition searchParams (u : t) : list (string * string) :=
  match query u with
  | None => []
  | Some q => urlencoded_parse q
  end.

(** [URLSearchParams.get]: the value of the first pair of that name,
    or null. *)
Fixpoint get (name : string) (params : list (string * string)) : option string :=
  match params with
  | [] => None
  | (n, v) :: ps => if String.eqb n name then Some v else get name ps
  end.

End URL.

(* ================================================================== *)
(** * JavaScript values the program handles *)

(** Errors, by the constructor that makes them. *)
Inductive JsError :=
| Error (message : string)            (* new Error(message) *)
| TypeError (message : string)        (* new URL(...) on an invalid input *)
| SystemError (code : string)         (* a failed bind: EADDRINUSE, EACCES *)
| ModuleNotFound (specifier : string) (* a failed import(...) *)
| SdkError (detail : string).         (* whatever the SDK throws *)

(** The SDK's [OAuthToken] object. *)
Record OAuthToken := {
  accessToken : string;
  tokenType : string;
  expiresIn : option N;
  scope : option string;
  expiry : option N;
  refreshToken : option string
}.

(** What the promise of [fetchToken] can hold at run time. *)
Inductive JsValue :=
| JsUndefined
| JsNull
| JsString (s : string)
| JsObject (t : OAuthToken).

(** Truthiness, as [if (x)] and [!x] see it. *)
Definition truthy (v : JsValue) : bool :=
  match v with
  | JsUndefined | JsNull => false
  | JsString s => negb (Str.is_empty s)
  | JsObject _ => true
  end.

(** Truthiness of a [string | null]. *)
Definition truthy_string (v : option string) : bool :=
  match v with
  | None => false
  | Some s => negb (Str.is_empty s)
  end.

(** [v || d] on a [string | undefined]. *)
Definition string_or (v : option string) (d : string) : string :=
  if truthy_string v then match v with Some s => s | None => d end else d.

(** A value interpolated in a template literal. *)
Definition interpolate (v : option string) : string :=
  match v with
  | Some s => s
  | None => "undefined"
  end.

(** [Number(s)], on the strings the [port] getter can return: the empty
    string is 0, decimal digits are their value, and the model answers
    [NaN] for everything else. *)
Inductive JsNumber := NaN | Num (n : N).

Definition Number (s : string) : JsNumber :=
  match URL.decimal s with
  | Some n => Num n
  | None => NaN
  end.

(** [x || d] on a number: 0 and NaN are falsy. *)
Definition number_or (x : JsNumber) (d : N) : N :=
  match x with
  | Num n => if (n =? 0)%N then d else n
  | NaN => d
  end.

(* ================================================================== *)
(** * The SDK: configuration and client *)

Inductive OAuthScopeEnum :=
| PlaylistModifyPrivate
| PlaylistModifyPublic
| UserReadPrivate.

Inductive Environment := Production.

Record AuthorizationCodeAuthCredentials := {
  oAuthClientId : string;
  oAuthClientSecret : string;
  oAuthRedirectUri : string;
  oAuthScopes : list OAuthScopeEnum;
  oAuthToken : option JsValue          (* absent until a token is set *)
}.

Record Configuration := {
  authorizationCodeAuthCredentials : AuthorizationCodeAuthCredentials;
  timeout : N;
  environment : Environment
}.

(** [Partial<Configuration>]: any of the keys may be missing. *)
Record PartialConfiguration := {
  with_authorizationCodeAuthCredentials : option AuthorizationCodeAuthCredentials;
  with_timeout : option N;
  with_environment : option Environment
}.

Record Client := { _config : Configuration }.

(** [{ ...base, ...over }]. *)
Definition spread (base : Configuration) (over : PartialConfiguration) : Configuration :=
  {| authorizationCodeAuthCredentials :=
       match with_authorizationCodeAuthCredentials over with
       | Some c => c
       | None => authorizationCodeAuthCredentials base
       end;
     timeout :=
       match with_timeout over with Some t => t | None => timeout base end;
     environment :=
       match with_environment over with Some e => e | None => environment base end |}.

(** [client.withConfiguration(over)]: a new client on the current
    configuration overridden by the keys of [over]. *)
Definition withConfiguration (c : Client) (over : PartialConfiguration) : Client :=
  {| _config := spread (_config c) over |}.

(** [{ ...creds, oAuthToken: token }]. *)
Definition spread_oAuthToken (creds : AuthorizationCodeAuthCredentials) (token : JsValue)
  : AuthorizationCodeAuthCredentials :=
  {| oAuthClientId := oAuthClientId creds;
     oAuthClientSecret := oAuthClientSecret creds;
     oAuthRedirectUri := oAuthRedirectUri creds;
     oAuthScopes := oAuthScopes creds;
     oAuthToken := Some token |}.

(* ================================================================== *)
(** * Effects *)

Inductive BindResult :=
| Bound
| BindFailed (code : string).

(** What the program does to the outside, one event per call. *)
Inductive Event :=
| EvLog (line : string)                       (* console.log *)
| EvNewClient (c : Configuration)             (* new Client(config) *)
| EvImport (specifier : string)               (* import(...) *)
| EvTurn                                      (* back to the event loop *)
| EvOpen (target : string)                    (* open.default(authUrl) *)
| EvCreateServer                              (* http.createServer *)
| EvListen (port : N) (host : option string) (r : BindResult)
| EvWriteHead (status : N) (contentType : string)
| EvEnd (body : string)
| EvServerClose                               (* server.close() *)
| EvResolve (code : string)                   (* resolve(code) *)
| EvReject (e : JsError)                      (* reject(e) *)
| EvFetchToken (code : string)                (* fetchToken(authCode) *)
| EvWithConfiguration (c : Configuration).    (* the client it returns *)

(** How a piece of code ends: it returns, it throws (an [async]
    function rejects), an exception escapes an event callback and ends
    the process, or it waits for ever. *)
Inductive Completion (A : Type) :=
| Returned (a : A)
| Thrown (e : JsError)
| Uncaught (e : JsError)
| Pending.

Arguments Returned {A} a.
Arguments Thrown {A} e.
Arguments Uncaught {A} e.
Arguments Pending {A}.

Definition M (A : Type) : Type := list Event * Completion A.

Definition ret {A} (a : A) : M A := ([], Returned a).

Definition bind {A B} (m : M A) (k : A -> M B) : M B :=
  match m with
  | (t, Returned a) => let (t', r) := k a in ((t ++ t')%list, r)
  | (t, Thrown e) => (t, Thrown e)
  | (t, Uncaught e) => (t, Uncaught e)
  | (t, Pending) => (t, Pending)
  end.

Definition emit (e : Event) : M unit := ([e], Returned tt).
Definition throw {A} (e : JsError) : M A := ([], Thrown e).
Definition trace {A} (m : M A) : list Event := fst m.
Definition completion {A} (m : M A) : Completion A := snd m.

Declare Scope js_scope.
Delimit Scope js_scope with js.
Notation "x <- m ;; k" := (bind m (fun x => k))
  (at level 61, m at next level, right associativity) : js_scope.
Notation "m ;; k" := (bind m (fun _ => k))
  (at level 61, right associativity) : js_scope.

(* ================================================================== *)
(** * The program *)

(** An incoming request, as far as the listener reads it:
    [req.headers.host] and [req.url]. *)
Record IncomingMessage := {
  headers_host : option string;
  url : string
}.

(** What [fetchToken] does with a code: its promise holds a value, or
    it throws. *)
Inductive FetchResult :=
| FetchReturns (v : JsValue)
| FetchThrows (e : JsError).

(** Everything outside the program that one run depends on.  The
    coordinator is resumed by the first request that reaches the
    listener ([callback]); what further requests do to the server and
    to the promise is followed by [arrivals] below. *)
Record World := {
  SPOTIFY_CLIENT_ID : option string;           (* process.env *)
  SPOTIFY_CLIENT_SECRET : option string;
  SPOTIFY_REDIRECT_URI : option string;
  open_installed : bool;                       (* import('open') succeeds *)
  bind_result : BindResult;                    (* what the bind of listen does *)
  callback : option IncomingMessage;           (* the first request to arrive, if any *)
  sdk_buildAuthorizationUrl : Client -> string;
  sdk_fetchToken : Client -> string -> FetchResult
}.

(** The state of the promise made by [new Promise(...)]. *)
Inductive PromiseState :=
| Unsettled
| Fulfilled (value : string)
| Rejected (reason : JsError).

(** The server, the promise its listener settles, and the process. *)
Record Listener := {
  accepting : bool;              (* the server accepts new connections *)
  promise : PromiseState;
  crashed : option JsError;      (* an uncaught exception ended the process *)
  output : list Event
}.

(** A request reaches the request listener on a connection of its own,
    or on a connection the server accepted earlier and that is still
    open.  Only the requests for which the server emits ['request'] are
    arrivals: a request the server answers by itself (an HTTP/1.1
    request without Host header, a malformed request line) is none, and
    an arrival with no Host header is an HTTP/1.0 request. *)
Inductive Arrival :=
| OnNewConnection (req : IncomingMessage)
| OnOpenConnection (req : IncomingMessage).

Definition success_page : string :=
  "<h1>Authorization successful! You can close this window.</h1>".
Definition failure_page : string :=
  "<h1>No code found in the callback.</h1>".

(** A [string | null] once the test [if (code)] has passed. *)
Definition narrowed (v : option string) : string :=
  match v with
  | Some s => s
  | None => EmptyString
  end.

(** [`http://${req.headers.host}${req.url}`], line 45. *)
Definition fullUrl (req : IncomingMessage) : string :=
  "http://" ++ interpolate (headers_host req) ++ url req.

Section Program.

Variable parse_host : string -> option string.

Local Open Scope js_scope.

(** Lines 20-22. *)
Definition clientId (w : World) : string := string_or (SPOTIFY_CLIENT_ID w) "".
Definition clientSecret (w : World) : string := string_or (SPOTIFY_CLIENT_SECRET w) "".
Definition redirectUri (w : World) : string := string_or (SPOTIFY_REDIRECT_URI w) "".

(** The request listener given to [http.createServer], lines 43-59. *)
Definition requestListener (req : IncomingMessage) : M unit :=
  match URL.parse parse_host (fullUrl req) with
  | None => throw (TypeError "Invalid URL")
  | Some url =>
      let code := URL.get "code" (URL.searchParams url) in
      if truthy_string code then
        emit (EvWriteHead 200 "text/html") ;;
        emit (EvEnd success_page) ;;
        emit EvServerClose ;;
        emit (EvResolve (narrowed code))
      else
        emit (EvWriteHead 400 "text/html") ;;
        emit (EvEnd failure_page) ;;
        emit EvServerClose ;;
        emit (EvReject (Error "No code found in callback"))
  end.

(** A promise is settled by the first call of [resolve] or [reject];
    later calls do nothing. *)
Definition settle (p next : PromiseState) : PromiseState :=
  match p with
  | Unsettled => next
  | Fulfilled _ | Rejected _ => p
  end.

(** What an event of the listener does to the server and the
    promise. *)
Definition effect (s : Listener) (e : Event) : Listener :=
  match e with
  | EvServerClose =>
      {| accepting := false; promise := promise s;
         crashed := crashed s; output := output s ++ [e] |}
  | EvResolve c =>
      {| accepting := accepting s; promise := settle (promise s) (Fulfilled c);
         crashed := crashed s; output := output s ++ [e] |}
  | EvReject r =>
      {| accepting := accepting s; promise := settle (promise s) (Rejected r);
         crashed := crashed s; output := output s ++ [e] |}
  | _ =>
      {| accepting := accepting s; promise := promise s;
         crashed := crashed s; output := output s ++ [e] |}
  end.

(** The ['request'] event: the listener runs; an exception it throws
    is caught by nobody. *)
Definition dispatch (s : Listener) (req : IncomingMessage) : Listener :=
  let (t, r) := requestListener req in
  let s' := fold_left effect t s in
  match r with
  | Thrown e | Uncaught e =>
      {| accepting := accepting s'; promise := promise s';
         crashed := Some e; output := output s' |}
  | Returned _ | Pending => s'
  end.

(** A request arrives.  A closed server refuses new connections;
    [close] leaves alone the connections it has accepted. *)
Definition arrive (s : Listener) (a : Arrival) : Listener :=
  match crashed s with
  | Some _ => s
  | None =>
      match a with
      | OnNewConnection req => if accepting s then dispatch s req else s
      | OnOpenConnection req => dispatch s req
      end
  end.

Definition arrivals (s : Listener) (l : list Arrival) : Listener :=
  fold_left arrive l s.

(** The server once [listen] has bound its port. *)
Definition listening : Listener :=
  {| accepting := true; promise := Unsettled; crashed := None; output := [] |}.

(** What awaiting the promise gives. *)
Definition awaited (s : Listener) : M string :=
  (output s,
   match crashed s with
   | Some e => Uncaught e
   | None =>
       match promise s with
       | Fulfilled c => Returned c
       | Rejected e => Thrown e
       | Unsettled => Pending
       end
   end).

(** [Number(new URL(redirectUri).port) || 4000], line 60. *)
Definition listen_port (u : URL.t) : N :=
  number_or (Number (URL.port u)) 4000.

(** Lines 38-65.  The world names the request that reaches the
    listener first, and the flow is followed for the runs in which no
    other request is handled before the promise is awaited; what later
    requests do to the listener is the matter of [arrivals]. *)
Definition getSpotifyAuthCode (w : World) (authUrl redirectUri : string) : M string :=
  emit (EvImport "open") ;;
  emit EvTurn ;;
  (if open_installed w then ret tt else throw (ModuleNotFound "open")) ;;
  emit (EvOpen authUrl) ;;
  emit EvCreateServer ;;
  match URL.parse parse_host redirectUri with
  | None => throw (TypeError "Invalid URL")
  | Some u =>
      let port := listen_port u in
      emit (EvListen port None (bind_result w)) ;;
      emit EvTurn ;;
      match bind_result w with
      | BindFailed c => ([], Uncaught (SystemError c))
      | Bound =>
          emit (EvLog ("Listening for Spotify redirect on " ++ redirectUri)) ;;
          emit EvTurn ;;
          match callback w with
          | None => ([], Pending)
          | Some req => awaited (arrive listening (OnNewConnection req))
          end
      end
  end.

(** [client.authorizationCodeAuthManager.fetchToken(authCode)]. *)
Definition fetchToken (w : World) (client : Client) (authCode : string) : M JsValue :=
  emit (EvFetchToken authCode) ;;
  emit EvTurn ;;
  match sdk_fetchToken w client authCode with
  | FetchReturns v => ret v
  | FetchThrows e => throw e
  end.

(** Lines 69-82. *)
Definition config (w : World) : Configuration :=
  {| authorizationCodeAuthCredentials :=
       {| oAuthClientId := clientId w;
          oAuthClientSecret := clientSecret w;
          oAuthRedirectUri := redirectUri w;
          oAuthScopes := [PlaylistModifyPrivate; PlaylistModifyPublic; UserReadPrivate];
          oAuthToken := None |};
     timeout := 0;
     environment := Production |}.

(** [new Client(config)], line 83. *)
Definition client (w : World) : Client := {| _config := config w |}.

(** [client.authorizationCodeAuthManager.buildAuthorizationUrl()],
    line 86. *)
Definition authUrl (w : World) : string := sdk_buildAuthorizationUrl w (client w).

(** The client returned at lines 95-100. *)
Definition session (w : World) (token : JsValue) : Client :=
  withConfiguration (client w)
    {| with_authorizationCodeAuthCredentials :=
         Some (spread_oAuthToken (authorizationCodeAuthCredentials (config w)) token);
       with_timeout := None;
       with_environment := None |}.

(** [getSpotifyAuthCode(authUrl, redirectUri)], line 87. *)
Definition request_code (w : World) : M string :=
  getSpotifyAuthCode w (authUrl w) (redirectUri w).

(** Lines 67-101. *)
Definition initializeSpotifyClientWithOAuth (w : World) : M Client :=
  emit (EvNewClient (config w)) ;;
  emit (EvLog "OAuth: Starting Spotify OAuth flow...") ;;
  authCode <- request_code w ;;
  emit (EvLog "OAuth: Received authorization code. Fetching access token...") ;;
  token <- fetchToken w (client w) authCode ;;
  if negb (truthy token) then throw (Error "Failed to fetch token!")
  else
    emit (EvLog "OAuth: Access token obtained. Creating new client with the token...") ;;
    emit (EvWithConfiguration (_config (session w token))) ;;
    ret (session w token).

End Program.

(* ================================================================== *)
(** * What the specification talks about, on traces *)

(** The events that start a round trip to the provider: the browser is
    sent to the authorization URL, the token endpoint is called. *)
Definition reaches_provider (e : Event) : bool :=
  match e with
  | EvOpen _ | EvFetchToken _ => true
  | _ => false
  end.

Definition is_open (e : Event) : bool :=
  match e with EvOpen _ => true | _ => false end.

Definition is_bound (e : Event) : bool :=
  match e with EvListen _ _ Bound => true | _ => false end.

Definition is_turn (e : Event) : bool :=
  match e with EvTurn => true | _ => false end.

(** The port gets bound before the running turn ends. *)
Fixpoint bound_this_turn (t : list Event) : bool :=
  match t with
  | [] => false
  | e :: r => if is_bound e then true else if is_turn e then false else bound_this_turn r
  end.

(** Whenever the browser is launched, the port is bound already or gets
    bound in the same turn. *)
Fixpoint listening_at_launch (bound : bool) (t : list Event) : bool :=
  match t with
  | [] => true
  | e :: r =>
      if is_open e then (bound || bound_this_turn r) && listening_at_launch bound r
      else listening_at_launch (bound || is_bound e) r
  end.

(** The hosts that name the loopback interface in a call of [listen];
    with no host the server listens on the unspecified address, that
    is on every interface. *)
Definition is_loopback (host : option string) : bool :=
  match host with
  | Some h => String.eqb h "localhost" || String.eqb h "127.0.0.1" || String.eqb h "::1"
  | None => false
  end.

Definition listens_on_loopback_only (e : Event) : bool :=
  match e with
  | EvListen _ h _ => is_loopback h
  | _ => true
  end.

(** The outcomes a run of arrivals produces: one for each step that
    takes the promise out of [Unsettled]. *)
Fixpoint outcomes (parse_host : string -> option string) (s : Listener) (l : list Arrival)
  : list PromiseState :=
  match l with
  | [] => []
  | a :: r =>
      let s' := arrive parse_host s a in
      match promise s, promise s' with
      | Unsettled, Fulfilled _ | Unsettled, Rejected _ => promise s' :: outcomes parse_host s' r
      | _, _ => outcomes parse_host s' r
      end
  end.

(** The events of lines 83-85, and of lines 88-89 once a code is
    there. *)
Definition preamble (w : World) : list Event :=
  [EvNewClient (config w); EvLog "OAuth: Starting Spotify OAuth flow..."].

Definition exchange (c : string) : list Event :=
  [EvLog "OAuth: Received authorization code. Fetching access token...";
   EvFetchToken c; EvTurn].


(** URIs written the plain way: [scheme://host], an optional
    [:port], and then nothing or a path, query or fragment. *)
Definition special_schemes : list string := ["http"; "https"; "ws"; "wss"; "ftp"].

Definition visible (c : ascii) : bool := negb (URL.c0_or_space c).

(** A character of a host: visible, and none of those that end an
    authority or structure it. *)
Definition host_char (c : ascii) : bool :=
  visible c && negb (URL.ends_authority c) && negb (Ascii.eqb c ":")
  && negb (Ascii.eqb c "@") && negb (Ascii.eqb c "[") && negb (Ascii.eqb c "]").

(** What may follow the authority. *)
Definition after_authority (rest : string) : bool :=
  match rest with
  | EmptyString => true
  | String c _ => URL.ends_authority c
  end && Str.forallb visible rest.

(** Requests written the plain way: a path, then [?code=] and a code
    of unreserved characters, then nothing, more parameters or a
    fragment. *)
Definition unreserved (c : ascii) : bool :=
  Str.is_alnum c || Ascii.eqb c "-" || Ascii.eqb c "." || Ascii.eqb c "_"
  || Ascii.eqb c "~".

Definition path_char (c : ascii) : bool :=
  visible c && negb (Ascii.eqb c "?") && negb (Ascii.eqb c "#").

Definition plain_path (path : string) : bool :=
  match path with
  | String c _ => Ascii.eqb c "/"
  | EmptyString => false
  end && Str.forallb path_char path.

Definition after_code (more : string) : bool :=
  match more with
  | EmptyString => true
  | String c _ => Ascii.eqb c "&" || Ascii.eqb c "#"
  end && Str.forallb visible more.

(* ================================================================== *)
(** * A host parser and some worlds to run the program in *)

(** A host parser that knows the plain names only: ASCII letters and
    dots, lower-cased. *)
Definition letters_host (h : string) : option string :=
  if Str.forallb (fun c => Str.is_alpha c || Ascii.eqb c ".") h
  then Some (Str.map Str.to_lower h) else None.

Definition a_token : OAuthToken :=
  {| accessToken := "BQDtoken"; tokenType := "Bearer"; expiresIn := Some 3600%N;
     scope := None; expiry := None; refreshToken := Some "AQDrefresh" |}.

Definition world (uri : string) (b : BindResult) (req : option IncomingMessage)
    (tok : JsValue) : World :=
  {| SPOTIFY_CLIENT_ID := Some "client";
     SPOTIFY_CLIENT_SECRET := Some "secret";
     SPOTIFY_REDIRECT_URI := Some uri;
     open_installed := true;
     bind_result := b;
     callback := req;
     sdk_buildAuthorizationUrl := fun _ => "https://accounts.spotify.com/authorize";
     sdk_fetchToken := fun _ _ => FetchReturns tok |}.

Definition get_callback (target : string) : IncomingMessage :=
  {| headers_host := Some "localhost:4000"; url := target |}.

Definition w_ok : World :=
  world "http://localhost:4000/callback" Bound
    (Some (get_callback "/callback?code=ABC123")) (JsObject a_token).

Definition w_denied : World :=
  world "http://localhost:4000/callback" Bound
    (Some (get_callback "/callback?error=access_denied")) (JsObject a_token).

Definition w_no_token : World :=
  world "http://localhost:4000/callback" Bound
    (Some (get_callback "/callback?code=ABC123")) (JsString "").

Definition w_busy : World :=
  world "http://localhost:4000/callback" (BindFailed "EADDRINUSE")
    (Some (get_callback "/callback?code=ABC123")) (JsObject a_token).

Definition w_port80 : World :=
  world "http://localhost:80/callback" Bound None (JsObject a_token).

(* ================================================================== *)
(** * The walkthrough: [prompt] and [main] *)

(** The objects of the SDK that [main] reads, with the fields it
    reads; every field but the URL of an image may be missing. *)
Module SpotifyApi.

Record ImageObject := { url : string }.
Record FollowersObject := { total : option N }.
Record ExternalUrlObject := { spotify : option string }.

Record ArtistObject := {
  id : option string;
  name : option string;
  genres : option (list string);
  popularity : option N;
  followers : option FollowersObject;
  externalUrls : option ExternalUrlObject;
  images : option (list ImageObject)
}.

End SpotifyApi.

(** What a call of the API gives: a result, or it throws. *)
Inductive ApiResult (A : Type) :=
| ApiReturns (a : A)
| ApiThrows (e : JsError).

Arguments ApiReturns {A} a.
Arguments ApiThrows {A} e.

(** What [main] meets after the authentication: the answers of the API
    and the lines the user types ([None]: the input ends with no
    line). *)
Record Outside := {
  profile_id : Client -> ApiResult (option string);      (* userProfile.result.id *)
  search_items : Client -> string ->
                 ApiResult (option (list SpotifyApi.ArtistObject));
                                                         (* result.artists?.items *)
  typed_artist : option string;
  typed_choice : option string
}.

(** What [main] does to the outside: what the authentication does, and
    its own calls. *)
Inductive Step :=
| Flow (e : Event)
| Question (query : string)                   (* rl.question *)
| GetCurrentUsersProfile
| Search (query market : string) (limit offset : N).

Definition Run (A : Type) : Type := list Step * Completion A.

Definition done {A} (a : A) : Run A := ([], Returned a).

Definition and_then {A B} (m : Run A) (k : A -> Run B) : Run B :=
  match m with
  | (t, Returned a) => let (t', r) := k a in ((t ++ t')%list, r)
  | (t, Thrown e) => (t, Thrown e)
  | (t, Uncaught e) => (t, Uncaught e)
  | (t, Pending) => (t, Pending)
  end.

Definition steps {A} (m : Run A) : list Step := fst m.
Definition ending {A} (m : Run A) : Completion A := snd m.

Definition log (line : string) : Run unit := ([Flow (EvLog line)], Returned tt).
Definition fail {A} (e : JsError) : Run A := ([], Thrown e).
Definition lift {A} (m : M A) : Run A := (List.map Flow (fst m), snd m).

Declare Scope run_scope.
Delimit Scope run_scope with run.
Notation "x <- m ;; k" := (and_then m (fun x => k))
  (at level 61, m at next level, right associativity) : run_scope.
Notation "m ;; k" := (and_then m (fun _ => k))
  (at level 61, right associativity) : run_scope.

(** An integer as [parseInt] gives it.  The values are kept exact; the
    program only compares them with the length of an array and indexes
    with them, which rounding to a double does not change. *)
Inductive JsInt :=
| IntNaN
| Int (z : Z).

(** The white space [parseInt] skips, on UTF-8 bytes: tab, LF, VT, FF,
    CR, space, U+00A0, U+1680, U+2000 to U+200A, U+2028, U+2029,
    U+202F, U+205F, U+3000 and U+FEFF. *)
Definition ws1 (a : ascii) : bool :=
  Str.between 9 13 a || (Str.code a =? 32)%N.

Definition ws2 (a b : ascii) : bool :=
  ((Str.code a =? 194) && (Str.code b =? 160))%N.

Definition ws3 (a b c : ascii) : bool :=
  (((Str.code a =? 225) && (Str.code b =? 154) && (Str.code c =? 128))
   || ((Str.code a =? 226) && (Str.code b =? 128)
       && (Str.between 128 138 c || (Str.code c =? 168) || (Str.code c =? 169)
           || (Str.code c =? 175)))
   || ((Str.code a =? 226) && (Str.code b =? 129) && (Str.code c =? 159))
   || ((Str.code a =? 227) && (Str.code b =? 128) && (Str.code c =? 128))
   || ((Str.code a =? 239) && (Str.code b =? 187) && (Str.code c =? 191)))%N.

Fixpoint trim_start (s : string) : string :=
  match s with
  | EmptyString => EmptyString
  | String a r =>
      if ws1 a then trim_start r
      else
        match r with
        | String b r2 =>
            if ws2 a b then trim_start r2
            else
              match r2 with
              | String c r3 => if ws3 a b c then trim_start r3 else s
              | EmptyString => s
              end
        | EmptyString => s
        end
  end.

(** [parseInt(s, 10)]: white space, a sign, then the longest run of
    decimal digits; [NaN] when there is no digit. *)
Definition parseInt10 (s : string) : JsInt :=
  let t := trim_start s in
  let (negative, body) :=
    match t with
    | String c r =>
        if Ascii.eqb c "-" then (true, r)
        else if Ascii.eqb c "+" then (false, r)
        else (false, t)
    | EmptyString => (false, t)
    end in
  let (digits, _) := Str.span (fun c => negb (Str.is_digit c)) body in
  if Str.is_empty digits then IntNaN
  else
    match URL.decimal digits with
    | Some n => Int (if negative then - Z.of_N n else Z.of_N n)
    | None => IntNaN
    end.

(** [x - 1], [x < 0] and [x >= n]; every comparison with [NaN] is
    false. *)
Definition minus_one (x : JsInt) : JsInt :=
  match x with
  | IntNaN => IntNaN
  | Int z => Int (z - 1)
  end.

Definition lt_zero (x : JsInt) : bool :=
  match x with
  | IntNaN => false
  | Int z => (z <? 0)%Z
  end.

Definition ge_length (x : JsInt) (n : nat) : bool :=
  match x with
  | IntNaN => false
  | Int z => (Z.of_nat n <=? z)%Z
  end.

(** [array[x]]: undefined unless [x] is an index of the array. *)
Definition element {A} (array : list A) (x : JsInt) : option A :=
  match x with
  | IntNaN => None
  | Int z => if (z <? 0)%Z then None else nth_error array (Z.to_nat z)
  end.

(** A number in a template literal. *)
Definition number_text (n : N) : string := NilEmpty.string_of_uint (N.to_uint n).

Definition interpolate_number (v : option N) : string :=
  match v with
  | Some n => number_text n
  | None => "undefined"
  end.

(** [artist.genres?.join(', ') || 'N/A']. *)
Definition genres_text (artist : SpotifyApi.ArtistObject) : string :=
  match SpotifyApi.genres artist with
  | Some g => if Str.is_empty (String.concat ", " g) then "N/A" else String.concat ", " g
  | None => "N/A"
  end.

(** [selectedArtist.followers?.total ?? 'N/A']. *)
Definition followers_text (artist : SpotifyApi.ArtistObject) : string :=
  match SpotifyApi.followers artist with
  | Some f =>
      match SpotifyApi.total f with
      | Some n => number_text n
      | None => "N/A"
      end
  | None => "N/A"
  end.

(** [selectedArtist.externalUrls?.spotify || 'N/A']. *)
Definition spotify_url_text (artist : SpotifyApi.ArtistObject) : string :=
  match SpotifyApi.externalUrls artist with
  | Some e => string_or (SpotifyApi.spotify e) "N/A"
  | None => "N/A"
  end.

(** The line of an artist in the list, line 145. *)
Definition artist_line (idx : nat) (artist : SpotifyApi.ArtistObject) : string :=
  number_text (N.of_nat (idx + 1)) ++ ". " ++ interpolate (SpotifyApi.name artist)
  ++ " (Genres: " ++ genres_text artist ++ ", Popularity: "
  ++ interpolate_number (SpotifyApi.popularity artist) ++ ")".

Local Open Scope run_scope.

(** [prompt(question)], lines 25-36: the question is written, and the
    promise is resolved with the line that is typed. *)
Definition prompt (question : string) (typed : option string) : Run string :=
  ([Question question],
   match typed with
   | Some answer => Returned answer
   | None => Pending
   end).

(** [artists.forEach(...)], lines 144-146. *)
Fixpoint forEach_log (idx : nat) (artists : list SpotifyApi.ArtistObject) : Run unit :=
  match artists with
  | [] => done tt
  | artist :: rest => log (artist_line idx artist) ;; forEach_log (idx + 1) rest
  end.

(** Lines 156-170. *)
Definition print_details (selectedArtist : SpotifyApi.ArtistObject) : Run unit :=
  if negb (truthy_string (SpotifyApi.id selectedArtist)) then
    log "Selected artist has no ID."
  else
    log (String (ascii_of_N 10) "Artist Details:") ;;
    log ("Name: " ++ interpolate (SpotifyApi.name selectedArtist)) ;;
    log ("Genres: " ++ genres_text selectedArtist) ;;
    log ("Popularity: " ++ interpolate_number (SpotifyApi.popularity selectedArtist)) ;;
    log ("Followers: " ++ followers_text selectedArtist) ;;
    log ("Spotify URL: " ++ spotify_url_text selectedArtist) ;;
    match SpotifyApi.images selectedArtist with
    | Some (image :: _) => log ("Image URL: " ++ SpotifyApi.url image)
    | Some [] | None => done tt
    end.

(** Reading [selectedArtist.name] of what [artists[idx]] gave. *)
Definition selected_name (selectedArtist : option SpotifyApi.ArtistObject)
  : Run SpotifyApi.ArtistObject :=
  match selectedArtist with
  | Some artist => done artist
  | None => fail (TypeError "Cannot read properties of undefined (reading 'name')")
  end.

(** Lines 130-171: from the result of the search on. *)
Definition pick_and_print (items : option (list SpotifyApi.ArtistObject))
    (typed : option string) : Run unit :=
  let artists := match items with Some l => l | None => [] end in
  log ("Step 2: Found " ++ number_text (N.of_nat (List.length artists)) ++ " artist(s).") ;;
  if Nat.eqb (List.length artists) 0 then log "No artists found."
  else if Nat.eqb (List.length artists) 1 then
    selectedArtist <- selected_name (element artists (Int 0)) ;;
    log ("Step 3: Only one artist found: " ++ interpolate (SpotifyApi.name selectedArtist)) ;;
    print_details selectedArtist
  else
    log "Step 3: Multiple artists found:" ;;
    forEach_log 0 artists ;;
    choice <- prompt "Select artist number: " typed ;;
    let idx := minus_one (parseInt10 choice) in
    if lt_zero idx || ge_length idx (List.length artists) then log "Invalid selection."
    else
      selectedArtist <- selected_name (element artists idx) ;;
      log ("Step 3: Selected artist: " ++ interpolate (SpotifyApi.name selectedArtist)) ;;
      print_details selectedArtist.

(** [usersController.getCurrentUsersProfile()] and
    [searchController.search(...)]. *)
Definition getCurrentUsersProfile (x : Outside) (c : Client) : Run (option string) :=
  ([GetCurrentUsersProfile],
   match profile_id x c with
   | ApiReturns v => Returned v
   | ApiThrows e => Thrown e
   end).

Definition search (x : Outside) (c : Client) (query : string)
  : Run (option (list SpotifyApi.ArtistObject)) :=
  ([Search query "US" 10 0],
   match search_items x c query with
   | ApiReturns v => Returned v
   | ApiThrows e => Thrown e
   end).

(** Lines 112-171: [main] once it has its client. *)
Definition walkthrough (x : Outside) (c : Client) : Run unit :=
  userId <- getCurrentUsersProfile x c ;;
  log ("OAuth: User ID is " ++ interpolate userId) ;;
  if negb (truthy_string userId) then fail (Error "Could not retrieve user ID.")
  else
    log "Step 1: Prompting for artist name..." ;;
    artistName <- prompt "Enter artist name: " (typed_artist x) ;;
    log "Step 2: Searching for artist..." ;;
    items <- search x c ("artist:" ++ artistName) ;;
    pick_and_print items (typed_choice x).

(** Lines 103-172. *)
Definition main (parse_host : string -> option string) (w : World) (x : Outside)
  : Run unit :=
  c <- lift (initializeSpotifyClientWithOAuth parse_host w) ;;
  walkthrough x c.

Local Close Scope run_scope.

(* ================================================================== *)
(** * More worlds, and what the listener phase may do *)

(** The events [getSpotifyAuthCode] can issue: everything but the calls
    of the coordinator. *)
Definition listener_phase_event (e : Event) : bool :=
  match e with
  | EvNewClient _ | EvFetchToken _ | EvWithConfiguration _ => false
  | _ => true
  end.

(** No redirect URI in the environment. *)
Definition w_unset : World :=
  {| SPOTIFY_CLIENT_ID := Some "client";
     SPOTIFY_CLIENT_SECRET := Some "secret";
     SPOTIFY_REDIRECT_URI := None;
     open_installed := true;
     bind_result := Bound;
     callback := None;
     sdk_buildAuthorizationUrl := fun _ => "https://accounts.spotify.com/authorize";
     sdk_fetchToken := fun _ _ => FetchReturns (JsObject a_token) |}.

(** The token endpoint answers with an error. *)
Definition w_fetch_throws : World :=
  {| SPOTIFY_CLIENT_ID := Some "client";
     SPOTIFY_CLIENT_SECRET := Some "secret";
     SPOTIFY_REDIRECT_URI := Some "http://localhost:4000/callback";
     open_installed := true;
     bind_result := Bound;
     callback := Some (get_callback "/callback?code=ABC123");
     sdk_buildAuthorizationUrl := fun _ => "https://accounts.spotify.com/authorize";
     sdk_fetchToken := fun _ _ => FetchThrows (SdkError "invalid_grant") |}.

(** The package [open] is not installed. *)
Definition w_no_open : World :=
  {| SPOTIFY_CLIENT_ID := Some "client";
     SPOTIFY_CLIENT_SECRET := Some "secret";
     SPOTIFY_REDIRECT_URI := Some "http://localhost:4000/callback";
     open_installed := false;
     bind_result := Bound;
     callback := Some (get_callback "/callback?code=ABC123");
     sdk_buildAuthorizationUrl := fun _ => "https://accounts.spotify.com/authorize";
     sdk_fetchToken := fun _ _ => FetchReturns (JsObject a_token) |}.

(** A redirect URI with a port that is no port. *)
Definition w_port99999 : World :=
  world "http://localhost:99999/callback" Bound None (JsObject a_token).

(** A request whose Host header carries a port that is no port. *)
Definition w_bad_host : World :=
  world "http://localhost:4000/callback" Bound
    (Some {| headers_host := Some "localhost:99999"; url := "/callback?code=ABC123" |})
    (JsObject a_token).

(** A request with no Host header. *)
Definition no_host_callback (target : string) : IncomingMessage :=
  {| headers_host := None; url := target |}.

(** The text starts with two hexadecimal digits: after a [%] they make
    an escape. *)
Definition two_hex (r : string) : bool :=
  match r with
  | String h (String l _) =>
      match Str.hex_value h, Str.hex_value l with
      | Some _, Some _ => true
      | _, _ => false
      end
  | _ => false
  end.

(** A character of the value of a parameter as it is written in a
    request target. *)
Definition value_char (c : ascii) : bool :=
  visible c && negb (Ascii.eqb c "&") && negb (Ascii.eqb c "#").

(* ================================================================== *)
(** * Artists and answers to run [main] with *)

Definition is_flow (st : Step) : bool :=
  match st with
  | Flow _ => true
  | _ => false
  end.

(** The first lines of [main] after a search that found several
    artists, lines 131 and 143. *)
Definition found_line (artists : list SpotifyApi.ArtistObject) : Step :=
  Flow (EvLog ("Step 2: Found " ++ number_text (N.of_nat (List.length artists))
               ++ " artist(s).")).

Definition choosing (artists : list SpotifyApi.ArtistObject) : list Step :=
  (found_line artists :: Flow (EvLog "Step 3: Multiple artists found:")
   :: steps (forEach_log 0 artists) ++ [Question "Select artist number: "])%list.

(** The heading of the details, line 162. *)
Definition details_heading : Step :=
  Flow (EvLog (String (ascii_of_N 10) "Artist Details:")).

Definition an_artist (artist_name : string) (artist_id : option string)
  : SpotifyApi.ArtistObject :=
  {| SpotifyApi.id := artist_id;
     SpotifyApi.name := Some artist_name;
     SpotifyApi.genres := Some ["glam rock"; "rock"];
     SpotifyApi.popularity := Some 82%N;
     SpotifyApi.followers := Some {| SpotifyApi.total := Some 0%N |};
     SpotifyApi.externalUrls := None;
     SpotifyApi.images := Some [] |}.

Definition two_artists : list SpotifyApi.ArtistObject :=
  [an_artist "Queen" (Some "1dfeR4HaWDbWqFHLkxsg1d"); an_artist "Queen Latifah" None].

Definition outside (user : option string) (found : list SpotifyApi.ArtistObject)
    (choice : option string) : Outside :=
  {| profile_id := fun _ => ApiReturns user;
     search_items := fun _ _ => ApiReturns (Some found);
     typed_artist := Some "Queen";
     typed_choice := choice |}.

(* ================================================================== *)
(** * Inputs on which the flow departs from the specification *)


(** A text of ASCII characters only: as bytes it is the same in UTF-8,
    so decoding it cannot meet an ill-formed sequence. *)
Definition ascii_text (s : string) : bool :=
  Str.forallb (fun c => (Str.code c <? 128)%N) s.

(** A token object whose access token is the empty string. *)
Definition an_empty_token : OAuthToken :=
  {| accessToken := ""; tokenType := "Bearer"; expiresIn := None;
     scope := None; expiry := None; refreshToken := None |}.

Definition w_empty_access_token : World :=
  world "http://localhost:4000/callback" Bound
    (Some (get_callback "/callback?code=ABC123")) (JsObject an_empty_token).

(** A request without code whose Host header carries a port that is no
    port. *)
Definition bad_host_no_code : IncomingMessage :=
  {| headers_host := Some "localhost:99999"; url := "/callback?error=access_denied" |}.

Definition w_bad_host_no_code : World :=
  world "http://localhost:4000/callback" Bound (Some bad_host_no_code) (JsObject a_token).

(* ================================================================== *)
(** * Parsing a URI written the plain way *)

Section ParseFacts.

Lemma forallb_app (p : ascii -> bool) (a b : string) :
  Str.forallb p (a ++ b) = Str.forallb p a && Str.forallb p b.
Proof.
  induction a as [|c a IH]; simpl; [reflexivity|].
  now rewrite IH, andb_assoc.
Qed.

Lemma forallb_impl (p q : ascii -> bool) (s : string) :
  (forall c, p c = true -> q c = true) ->
  Str.forallb p s = true -> Str.forallb q s = true.
Proof.
  intros H. induction s as [|c s IH]; simpl; [reflexivity|].
  intros E. apply andb_prop in E. destruct E as [E1 E2].
  now rewrite (H c E1), IH.
Qed.

Lemma append_empty (s : string) : s ++ "" = s.
Proof. induction s as [|c s IH]; simpl; [reflexivity | now rewrite IH]. Qed.

Lemma append_assoc (a b c : string) : (a ++ b) ++ c = a ++ b ++ c.
Proof. induction a as [|x a IH]; simpl; [reflexivity | now rewrite IH]. Qed.

(** Nothing is trimmed from a text of visible characters. *)
Lemma trim_right_visible (s : string) :
  Str.forallb visible s = true -> URL.trim_right s = s.
Proof.
  induction s as [|c s IH]; simpl; [reflexivity|].
  intros E. apply andb_prop in E. destruct E as [E1 E2].
  rewrite (IH E2). unfold visible in E1.
  destruct (URL.c0_or_space c); [discriminate|].
  now rewrite andb_false_r.
Qed.

Lemma clean_visible (s : string) :
  Str.forallb visible s = true -> URL.clean s = s.
Proof.
  intros E. unfold URL.clean.
  assert (L : URL.trim_left s = s).
  { destruct s as [|c s]; [reflexivity|]. simpl in *.
    apply andb_prop in E. destruct E as [E1 _]. unfold visible in E1.
    now destruct (URL.c0_or_space c). }
  rewrite L, (trim_right_visible s E).
  clear L. induction s as [|c s IH]; simpl; [reflexivity|].
  simpl in E. apply andb_prop in E. destruct E as [E1 E2].
  assert (T : URL.tab_or_newline c = false).
  { unfold visible, URL.c0_or_space in E1. unfold URL.tab_or_newline.
    destruct (N.leb_spec (Str.code c) 32); [discriminate|].
    destruct (N.eqb_spec (Str.code c) 9); [lia|].
    destruct (N.eqb_spec (Str.code c) 10); [lia|].
    destruct (N.eqb_spec (Str.code c) 13); [lia|]. reflexivity. }
  rewrite T. simpl. now rewrite (IH E2).
Qed.

(** [span] cuts where the first stopping character stands. *)
Lemma span_app (stop : ascii -> bool) (a b : string) :
  Str.forallb (fun c => negb (stop c)) a = true ->
  match b with EmptyString => true | String c _ => stop c end = true ->
  Str.span stop (a ++ b) = (a, b).
Proof.
  intros Ha Hb. induction a as [|c a IH]; simpl.
  - destruct b as [|c b]; [reflexivity|]. simpl. now rewrite Hb.
  - simpl in Ha. apply andb_prop in Ha. destruct Ha as [H1 H2].
    destruct (stop c); [discriminate|]. now rewrite (IH H2).
Qed.

Lemma after_last_none (sep : ascii) (s : string) :
  Str.forallb (fun c => negb (Ascii.eqb c sep)) s = true ->
  Str.after_last sep s = None.
Proof.
  induction s as [|c s IH]; simpl; [reflexivity|].
  intros E. apply andb_prop in E. destruct E as [E1 E2].
  rewrite (IH E2). now destruct (Ascii.eqb c sep).
Qed.

Lemma host_char_inv (c : ascii) :
  host_char c = true ->
  visible c = true /\ URL.ends_authority c = false /\ Ascii.eqb c ":" = false /\
  Ascii.eqb c "@" = false /\ Ascii.eqb c "[" = false /\ Ascii.eqb c "]" = false.
Proof.
  unfold host_char. intros H.
  repeat (apply andb_prop in H; destruct H as [H ?]).
  repeat split; try assumption; now apply negb_true_iff.
Qed.

Lemma digit_inv (c : ascii) :
  Str.is_digit c = true ->
  visible c = true /\ URL.ends_authority c = false /\ Ascii.eqb c "@" = false.
Proof.
  unfold Str.is_digit, Str.between, Str.code. intros H.
  apply andb_prop in H. destruct H as [H1 H2].
  apply N.leb_le in H1. apply N.leb_le in H2.
  assert (E : c = ascii_of_N (N_of_ascii c)) by now rewrite ascii_N_embedding.
  assert (R : In (N_of_ascii c) [48;49;50;51;52;53;54;55;56;57]%N).
  { remember (N_of_ascii c) as n. simpl.
    assert (n = 48 \/ n = 49 \/ n = 50 \/ n = 51 \/ n = 52 \/ n = 53 \/ n = 54
            \/ n = 55 \/ n = 56 \/ n = 57)%N by lia.
    intuition auto. }
  simpl in R.
  repeat (destruct R as [R|R]; [rewrite <- R in E; rewrite E; now vm_compute|]).
  contradiction.
Qed.

(** The host of a plain authority runs up to the colon of its port. *)
Lemma split_host_plain (h : string) :
  Str.forallb host_char h = true ->
  URL.split_host false h = (h, None) /\
  forall ds, URL.split_host false (h ++ String ":" ds) = (h, Some ds).
Proof.
  induction h as [|c h IH]; simpl.
  - intros _. split; reflexivity.
  - intros E. apply andb_prop in E. destruct E as [E1 E2].
    destruct (host_char_inv c E1) as (_ & _ & Hc & _ & Hl & Hr).
    rewrite Hc, Hl, Hr. simpl.
    destruct (IH E2) as [I1 I2]. rewrite I1. split; [reflexivity|].
    intros ds. now rewrite I2.
Qed.

Lemma skip_slashes_host (h tail : string) :
  h <> EmptyString -> Str.forallb host_char h = true ->
  URL.skip_slashes (String "/" (String "/" (h ++ tail))) = h ++ tail.
Proof.
  intros Hne E. destruct h as [|c h]; [congruence|].
  simpl in E. apply andb_prop in E. destruct E as [E1 _].
  destruct (host_char_inv c E1) as (_ & Hs & _).
  unfold URL.ends_authority in Hs.
  apply orb_false_iff in Hs. destruct Hs as [Hs _].
  apply orb_false_iff in Hs. destruct Hs as [Hs _].
  simpl. now rewrite Hs.
Qed.

Lemma parse_scheme_special (sch tail : string) :
  In sch special_schemes ->
  URL.parse_scheme (sch ++ String ":" tail) = Some (sch, tail) /\
  exists d, URL.default_port sch = Some d.
Proof.
  simpl. intros [<-|[<-|[<-|[<-|[<-|[]]]]]]; split; try reflexivity; eexists; reflexivity.
Qed.

Lemma special_visible (sch : string) :
  In sch special_schemes -> Str.forallb visible sch = true.
Proof. simpl. intros [<-|[<-|[<-|[<-|[<-|[]]]]]]; reflexivity. Qed.

Section Plain.

Variable parse_host : string -> option string.
Variables sch h rest : string.
Hypothesis Hsch : In sch special_schemes.
Hypothesis Hh : Str.forallb host_char h = true.
Hypothesis Hne : h <> EmptyString.
Hypothesis Hrest : after_authority rest = true.

Lemma authority_state_plain (port_part buffer : string) :
  (port_part = EmptyString /\ buffer = EmptyString \/
   port_part = String ":" buffer /\ Str.forallb Str.is_digit buffer = true) ->
  URL.authority_state parse_host sch (h ++ port_part ++ rest) =
  match parse_host h with
  | None => None
  | Some hst =>
      match URL.port_state sch buffer with
      | None => None
      | Some p =>
          Some {| URL.scheme := sch; URL.host := hst; URL.port_number := p;
                  URL.query := URL.query_state rest |}
      end
  end.
Proof.
  intros Hp. unfold URL.authority_state.
  unfold after_authority in Hrest. apply andb_prop in Hrest.
  destruct Hrest as [Hr1 Hr2].
  assert (A : Str.forallb (fun c => negb (URL.ends_authority c)) (h ++ port_part) = true).
  { rewrite forallb_app. apply andb_true_intro. split.
    - apply (forallb_impl host_char); [|exact Hh].
      intros c Hc. destruct (host_char_inv c Hc) as (_ & -> & _). reflexivity.
    - destruct Hp as [[-> _]|[-> Hd]]; [reflexivity|]. simpl.
      apply (forallb_impl Str.is_digit); [|exact Hd].
      intros c Hc. destruct (digit_inv c Hc) as (_ & -> & _). reflexivity. }
  assert (B : Str.forallb (fun c => negb (Ascii.eqb c "@")) (h ++ port_part) = true).
  { rewrite forallb_app. apply andb_true_intro. split.
    - apply (forallb_impl host_char); [|exact Hh].
      intros c Hc. destruct (host_char_inv c Hc) as (_ & _ & _ & -> & _). reflexivity.
    - destruct Hp as [[-> _]|[-> Hd]]; [reflexivity|]. simpl.
      apply (forallb_impl Str.is_digit); [|exact Hd].
      intros c Hc. destruct (digit_inv c Hc) as (_ & _ & ->). reflexivity. }
  rewrite <- append_assoc.
  rewrite (span_app URL.ends_authority (h ++ port_part) rest A Hr1).
  rewrite (after_last_none "@" (h ++ port_part) B).
  destruct (split_host_plain h Hh) as [S1 S2].
  assert (E : Str.is_empty h = false) by (destruct h; [congruence | reflexivity]).
  destruct Hp as [[-> ->]|[-> Hd]].
  - rewrite append_empty, S1, E. reflexivity.
  - rewrite S2, E. reflexivity.
Qed.

Lemma parse_plain (port_part buffer : string) :
  (port_part = EmptyString /\ buffer = EmptyString \/
   port_part = String ":" buffer /\ Str.forallb Str.is_digit buffer = true) ->
  URL.parse parse_host (sch ++ "://" ++ h ++ port_part ++ rest) =
  match parse_host h with
  | None => None
  | Some hst =>
      match URL.port_state sch buffer with
      | None => None
      | Some p =>
          Some {| URL.scheme := sch; URL.host := hst; URL.port_number := p;
                  URL.query := URL.query_state rest |}
      end
  end.
Proof.
  intros Hp. unfold URL.parse.
  assert (V : Str.forallb visible (sch ++ "://" ++ h ++ port_part ++ rest) = true).
  { rewrite forallb_app, (special_visible sch Hsch). simpl.
    rewrite !forallb_app.
    unfold after_authority in Hrest. apply andb_prop in Hrest.
    destruct Hrest as [_ ->].
    rewrite (forallb_impl host_char visible h); [| |exact Hh].
    2:{ intros c Hc. now destruct (host_char_inv c Hc). }
    destruct Hp as [[-> _]|[-> Hd]]; [reflexivity|]. simpl.
    rewrite (forallb_impl Str.is_digit visible buffer); [reflexivity| |exact Hd].
    intros c Hc. now destruct (digit_inv c Hc). }
  rewrite (clean_visible _ V).
  destruct (parse_scheme_special sch ("//" ++ h ++ port_part ++ rest) Hsch) as [P (d & D)].
  simpl in P. simpl. rewrite P, D.
  rewrite (skip_slashes_host h (port_part ++ rest) Hne Hh).
  now apply authority_state_plain.
Qed.

End Plain.

End ParseFacts.

(* ================================================================== *)
(** * The port of the listener *)

Section PortFacts.

Lemma decimal_of_port (p : N) :
  URL.decimal (NilEmpty.string_of_uint (N.to_uint p)) = Some p.
Proof.
  unfold URL.decimal.
  rewrite NilEmpty.usu. simpl.
  now rewrite DecimalN.Unsigned.of_to.
Qed.

(** [Number] undoes the [port] getter; null reads as 0. *)
Lemma Number_port (u : URL.t) :
  Number (URL.port u) =
  Num (match URL.port_number u with Some p => p | None => 0%N end).
Proof.
  unfold Number, URL.port.
  destruct (URL.port_number u) as [p|].
  - now rewrite decimal_of_port.
  - reflexivity.
Qed.

Lemma listen_port_eq (u : URL.t) :
  listen_port u =
  match URL.port_number u with
  | Some p => if (p =? 0)%N then 4000%N else p
  | None => 4000%N
  end.
Proof.
  unfold listen_port. rewrite Number_port.
  destruct (URL.port_number u); reflexivity.
Qed.

(** A URL without a port makes the listener take 4000. *)
Lemma listen_port_default (u : URL.t) :
  URL.port_number u = None -> listen_port u = 4000%N.
Proof. intros H. now rewrite listen_port_eq, H. Qed.

(** A URL that kept a port other than 0 makes the listener take it. *)
Lemma listen_port_kept (u : URL.t) (p : N) :
  URL.port_number u = Some p -> p <> 0%N -> listen_port u = p.
Proof.
  intros H Hp. rewrite listen_port_eq, H.
  destruct (N.eqb_spec p 0); congruence.
Qed.

(** The port state keeps a port exactly when it is in range and is
    not the default of the scheme. *)
Lemma port_state_kept (sch buffer : string) (p d : N) :
  URL.decimal buffer = Some p -> Str.is_empty buffer = false ->
  (p <= 65535)%N -> URL.default_port sch = Some d -> p <> d ->
  URL.port_state sch buffer = Some (Some p).
Proof.
  intros Hdec Hne Hle Hd Hpd. unfold URL.port_state.
  rewrite Hne, Hdec, Hd.
  destruct (N.ltb_spec 65535 p); [lia|].
  destruct (N.eqb_spec p d); congruence.
Qed.

Lemma port_state_default (sch buffer : string) (d : N) :
  URL.decimal buffer = Some d -> (d <= 65535)%N ->
  URL.default_port sch = Some d ->
  URL.port_state sch buffer = Some None.
Proof.
  intros Hdec Hle Hd. unfold URL.port_state.
  destruct (Str.is_empty buffer); [reflexivity|].
  rewrite Hdec, Hd.
  destruct (N.ltb_spec 65535 d); [lia|].
  now rewrite N.eqb_refl.
Qed.

End PortFacts.

(* ================================================================== *)
(** * The request listener and the promise *)

Section ListenerFacts.

Variable parse_host : string -> option string.

Lemma truthy_string_some (c : string) :
  c <> EmptyString -> truthy_string (Some c) = true.
Proof. destruct c; [congruence | reflexivity]. Qed.

Lemma truthy_string_inv (v : option string) :
  truthy_string v = true -> exists c, v = Some c /\ c <> EmptyString.
Proof.
  destruct v as [[|a c]|]; simpl; try discriminate.
  intros _. exists (String a c). split; [reflexivity | discriminate].
Qed.

Lemma requestListener_code (req : IncomingMessage) (u : URL.t) (c : string) :
  URL.parse parse_host (fullUrl req) = Some u ->
  URL.get "code" (URL.searchParams u) = Some c ->
  c <> EmptyString ->
  requestListener parse_host req =
  ([EvWriteHead 200 "text/html"; EvEnd success_page; EvServerClose; EvResolve c],
   Returned tt).
Proof.
  intros Hu Hc Hne. unfold requestListener.
  rewrite Hu, Hc, (truthy_string_some c Hne). reflexivity.
Qed.

Lemma requestListener_no_code (req : IncomingMessage) (u : URL.t) :
  URL.parse parse_host (fullUrl req) = Some u ->
  truthy_string (URL.get "code" (URL.searchParams u)) = false ->
  requestListener parse_host req =
  ([EvWriteHead 400 "text/html"; EvEnd failure_page; EvServerClose;
    EvReject (Error "No code found in callback")],
   Returned tt).
Proof.
  intros Hu Hc. unfold requestListener.
  rewrite Hu, Hc. reflexivity.
Qed.

Lemma requestListener_throws (req : IncomingMessage) :
  URL.parse parse_host (fullUrl req) = None ->
  requestListener parse_host req = ([], Thrown (TypeError "Invalid URL")).
Proof. intros Hu. unfold requestListener. now rewrite Hu. Qed.


Lemma settle_settled (p next : PromiseState) :
  p <> Unsettled -> settle p next = p.
Proof. destruct p; [congruence | reflexivity | reflexivity]. Qed.

Lemma settle_unsettled (next : PromiseState) :
  settle Unsettled next = next.
Proof. reflexivity. Qed.










(** The first arrival at a listening server is always dispatched. *)
Lemma arrive_listening (a : Arrival) :
  exists req, arrive parse_host (listening) a = dispatch parse_host listening req.
Proof. destruct a as [req|req]; exists req; reflexivity. Qed.

End ListenerFacts.

(* ================================================================== *)
(** * Sequencing *)

Section MonadFacts.

Context {A B : Type}.

Lemma trace_pair (t : list Event) (r : Completion A) : trace (t, r) = t.
Proof. reflexivity. Qed.

Lemma completion_pair (t : list Event) (r : Completion A) : completion (t, r) = r.
Proof. reflexivity. Qed.

Lemma bind_returned (m : M A) (k : A -> M B) (t : list Event) (a : A) :
  m = (t, Returned a) ->
  bind m k = ((t ++ trace (k a))%list, completion (k a)).
Proof.
  intros ->. unfold bind, trace, completion. now destruct (k a).
Qed.

Lemma bind_stops (m : M A) (k : A -> M B) :
  (forall a, completion m <> Returned a) ->
  trace (bind m k) = trace m /\
  match completion m with
  | Returned _ => False
  | Thrown e => completion (bind m k) = Thrown e
  | Uncaught e => completion (bind m k) = Uncaught e
  | Pending => completion (bind m k) = Pending
  end.
Proof.
  destruct m as [t [a|e|e|]]; simpl; intros H; auto.
  exfalso. now apply (H a).
Qed.

Lemma completion_bind_inv (m : M A) (k : A -> M B) (b : B) :
  completion (bind m k) = Returned b ->
  exists a, completion m = Returned a /\ completion (k a) = Returned b.
Proof.
  destruct m as [t [a|e|e|]]; simpl; try discriminate.
  intros H. exists a. split; [reflexivity|].
  unfold completion. now destruct (k a).
Qed.

Lemma trace_bind_returned (m : M A) (k : A -> M B) (a : A) :
  completion m = Returned a ->
  trace (bind m k) = (trace m ++ trace (k a))%list.
Proof.
  destruct m as [t r]; simpl; intros ->.
  unfold trace. now destruct (k a).
Qed.

End MonadFacts.

(* ================================================================== *)
(** * The listener, awaited *)

Section AwaitFacts.

Variable parse_host : string -> option string.

Lemma awaited_code (req : IncomingMessage) (u : URL.t) (c : string) :
  URL.parse parse_host (fullUrl req) = Some u ->
  URL.get "code" (URL.searchParams u) = Some c ->
  c <> EmptyString ->
  awaited (arrive parse_host listening (OnNewConnection req)) =
  ([EvWriteHead 200 "text/html"; EvEnd success_page; EvServerClose; EvResolve c],
   Returned c).
Proof.
  intros Hu Hc Hne. unfold arrive, dispatch. simpl.
  now rewrite (requestListener_code parse_host req u c Hu Hc Hne).
Qed.

Lemma awaited_no_code (req : IncomingMessage) (u : URL.t) :
  URL.parse parse_host (fullUrl req) = Some u ->
  truthy_string (URL.get "code" (URL.searchParams u)) = false ->
  awaited (arrive parse_host listening (OnNewConnection req)) =
  ([EvWriteHead 400 "text/html"; EvEnd failure_page; EvServerClose;
    EvReject (Error "No code found in callback")],
   Thrown (Error "No code found in callback")).
Proof.
  intros Hu Hc. unfold arrive, dispatch. simpl.
  now rewrite (requestListener_no_code parse_host req u Hu Hc).
Qed.

Lemma awaited_throws (req : IncomingMessage) :
  URL.parse parse_host (fullUrl req) = None ->
  awaited (arrive parse_host listening (OnNewConnection req)) =
  ([], Uncaught (TypeError "Invalid URL")).
Proof.
  intros Hu. unfold arrive, dispatch. simpl.
  now rewrite (requestListener_throws parse_host req Hu).
Qed.

(** The code a listener hands over is never empty. *)
Lemma awaited_returned_inv (req : IncomingMessage) (c : string) :
  completion (awaited (arrive parse_host listening (OnNewConnection req))) = Returned c ->
  exists u, URL.parse parse_host (fullUrl req) = Some u /\
            URL.get "code" (URL.searchParams u) = Some c /\
            c <> EmptyString.
Proof.
  destruct (URL.parse parse_host (fullUrl req)) as [u|] eqn:Hu.
  - destruct (truthy_string (URL.get "code" (URL.searchParams u))) eqn:Hc.
    + destruct (truthy_string_inv _ Hc) as (c' & Hget & Hne).
      rewrite (awaited_code req u c' Hu Hget Hne). simpl.
      intros [= <-]. now exists u.
    + rewrite (awaited_no_code req u Hu Hc). discriminate.
  - rewrite (awaited_throws req Hu). discriminate.
Qed.

(** The part of [getSpotifyAuthCode] that runs in one turn, up to the
    call of [listen]. *)
Lemma getSpotifyAuthCode_listening (w : World) (authUrl uri : string) (u : URL.t) :
  open_installed w = true ->
  URL.parse parse_host uri = Some u ->
  bind_result w = Bound ->
  getSpotifyAuthCode parse_host w authUrl uri =
  (([EvImport "open"; EvTurn; EvOpen authUrl; EvCreateServer;
     EvListen (listen_port u) None Bound; EvTurn;
     EvLog ("Listening for Spotify redirect on " ++ uri); EvTurn]
    ++ trace (match callback w with
              | None => ([], Pending)
              | Some req => awaited (arrive parse_host listening (OnNewConnection req))
              end))%list,
   completion (match callback w with
               | None => ([], Pending)
               | Some req => awaited (arrive parse_host listening (OnNewConnection req))
               end)).
Proof.
  intros Ho Hu Hb. unfold getSpotifyAuthCode.
  rewrite Ho, Hu, Hb. simpl.
  destruct (callback w) as [req|]; [|reflexivity].
  now destruct (awaited (arrive parse_host listening (OnNewConnection req))).
Qed.

Lemma getSpotifyAuthCode_bind_failed (w : World) (authUrl uri code : string) (u : URL.t) :
  open_installed w = true ->
  URL.parse parse_host uri = Some u ->
  bind_result w = BindFailed code ->
  getSpotifyAuthCode parse_host w authUrl uri =
  ([EvImport "open"; EvTurn; EvOpen authUrl; EvCreateServer;
    EvListen (listen_port u) None (BindFailed code); EvTurn],
   Uncaught (SystemError code)).
Proof.
  intros Ho Hu Hb. unfold getSpotifyAuthCode.
  rewrite Ho, Hu, Hb. reflexivity.
Qed.

(** What a run that hands over a code went through. *)
Lemma getSpotifyAuthCode_returned_inv (w : World) (authUrl uri c : string) :
  completion (getSpotifyAuthCode parse_host w authUrl uri) = Returned c ->
  open_installed w = true /\ bind_result w = Bound /\
  exists u req ru,
    URL.parse parse_host uri = Some u /\
    callback w = Some req /\
    URL.parse parse_host (fullUrl req) = Some ru /\
    URL.get "code" (URL.searchParams ru) = Some c /\
    c <> EmptyString /\
    trace (getSpotifyAuthCode parse_host w authUrl uri) =
    [EvImport "open"; EvTurn; EvOpen authUrl; EvCreateServer;
     EvListen (listen_port u) None Bound; EvTurn;
     EvLog ("Listening for Spotify redirect on " ++ uri); EvTurn;
     EvWriteHead 200 "text/html"; EvEnd success_page; EvServerClose; EvResolve c].
Proof.
  destruct (open_installed w) eqn:Ho;
    [|unfold getSpotifyAuthCode; rewrite Ho; discriminate].
  destruct (URL.parse parse_host uri) as [u|] eqn:Hu;
    [|unfold getSpotifyAuthCode; rewrite Ho, Hu; discriminate].
  destruct (bind_result w) as [|code] eqn:Hb;
    [|rewrite (getSpotifyAuthCode_bind_failed w authUrl uri code u Ho Hu Hb); discriminate].
  rewrite (getSpotifyAuthCode_listening w authUrl uri u Ho Hu Hb).
  destruct (callback w) as [req|]; [|discriminate].
  unfold completion at 1. simpl snd. intros H.
  destruct (awaited_returned_inv req c H) as (ru & Hru & Hget & Hne).
  repeat split; auto. exists u, req, ru. repeat split; auto.
  now rewrite (awaited_code req ru c Hru Hget Hne).
Qed.

End AwaitFacts.

(* ================================================================== *)
(** * The coordinator *)

Section FlowFacts.

Variable parse_host : string -> option string.

(** The run stops with the listener when no code comes out of it. *)
Lemma run_without_code (w : World) :
  (forall c, completion (request_code parse_host w) <> Returned c) ->
  trace (initializeSpotifyClientWithOAuth parse_host w) = (preamble w ++ trace (request_code parse_host w))%list /\
  match completion (request_code parse_host w) with
  | Returned _ => False
  | Thrown e => completion (initializeSpotifyClientWithOAuth parse_host w) = Thrown e
  | Uncaught e => completion (initializeSpotifyClientWithOAuth parse_host w) = Uncaught e
  | Pending => completion (initializeSpotifyClientWithOAuth parse_host w) = Pending
  end.
Proof.
  intros H. unfold initializeSpotifyClientWithOAuth.
  destruct (request_code parse_host w) as [t [c|e|e|]]; simpl in *; auto.
  exfalso. now apply (H c).
Qed.

Lemma run_with_token (w : World) (c : string) (tok : JsValue) :
  completion (request_code parse_host w) = Returned c ->
  sdk_fetchToken w (client w) c = FetchReturns tok ->
  truthy tok = true ->
  initializeSpotifyClientWithOAuth parse_host w =
  ((preamble w ++ trace (request_code parse_host w) ++ exchange c ++
    [EvLog "OAuth: Access token obtained. Creating new client with the token...";
     EvWithConfiguration (_config (session w tok))])%list,
   Returned (session w tok)).
Proof.
  intros Hc Hf Ht. unfold initializeSpotifyClientWithOAuth, fetchToken.
  destruct (request_code parse_host w) as [t r]; simpl in Hc; subst r.
  simpl. rewrite Hf. simpl. rewrite Ht. simpl.
  reflexivity.
Qed.

Lemma run_without_token (w : World) (c : string) (tok : JsValue) :
  completion (request_code parse_host w) = Returned c ->
  sdk_fetchToken w (client w) c = FetchReturns tok ->
  truthy tok = false ->
  initializeSpotifyClientWithOAuth parse_host w =
  ((preamble w ++ trace (request_code parse_host w) ++ exchange c)%list,
   Thrown (Error "Failed to fetch token!")).
Proof.
  intros Hc Hf Ht. unfold initializeSpotifyClientWithOAuth, fetchToken.
  destruct (request_code parse_host w) as [t r]; simpl in Hc; subst r.
  simpl. rewrite Hf. simpl. rewrite Ht. simpl.
  reflexivity.
Qed.

Lemma run_fetch_throws (w : World) (c : string) (e : JsError) :
  completion (request_code parse_host w) = Returned c ->
  sdk_fetchToken w (client w) c = FetchThrows e ->
  initializeSpotifyClientWithOAuth parse_host w = ((preamble w ++ trace (request_code parse_host w) ++ exchange c)%list, Thrown e).
Proof.
  intros Hc Hf. unfold initializeSpotifyClientWithOAuth, fetchToken.
  destruct (request_code parse_host w) as [t r]; simpl in Hc; subst r.
  simpl. rewrite Hf. simpl.
  reflexivity.
Qed.

(** A run that returns a client has been through the whole flow. *)
Lemma run_returned_inv (w : World) (s : Client) :
  completion (initializeSpotifyClientWithOAuth parse_host w) = Returned s ->
  exists c tok,
    completion (request_code parse_host w) = Returned c /\
    sdk_fetchToken w (client w) c = FetchReturns tok /\
    truthy tok = true /\
    s = session w tok.
Proof.
  intros H.
  destruct (completion (request_code parse_host w)) as [c|e|e|] eqn:Hc.
  - destruct (sdk_fetchToken w (client w) c) as [tok|e] eqn:Hf.
    + destruct (truthy tok) eqn:Ht.
      * rewrite (run_with_token w c tok Hc Hf Ht) in H. simpl in H.
        injection H as <-. now exists c, tok.
      * now rewrite (run_without_token w c tok Hc Hf Ht) in H.
    + now rewrite (run_fetch_throws w c e Hc Hf) in H.
  - destruct (run_without_code w) as [_ R];
      [intros c; congruence | rewrite Hc in R; congruence].
  - destruct (run_without_code w) as [_ R];
      [intros c; congruence | rewrite Hc in R; congruence].
  - destruct (run_without_code w) as [_ R];
      [intros c; congruence | rewrite Hc in R; congruence].
Qed.

End FlowFacts.

(* ================================================================== *)
(** * Shape of the traces *)

Section TraceFacts.

Variable parse_host : string -> option string.

(** What the listener phase writes when a request is answered. *)
Lemma awaited_trace (req : IncomingMessage) :
  let t := trace (awaited (arrive parse_host listening (OnNewConnection req))) in
  t = [] \/
  (exists c, t = [EvWriteHead 200 "text/html"; EvEnd success_page;
                  EvServerClose; EvResolve c]) \/
  t = [EvWriteHead 400 "text/html"; EvEnd failure_page; EvServerClose;
       EvReject (Error "No code found in callback")].
Proof.
  destruct (URL.parse parse_host (fullUrl req)) as [u|] eqn:Hu.
  - destruct (truthy_string (URL.get "code" (URL.searchParams u))) eqn:Hc.
    + destruct (truthy_string_inv _ Hc) as (c & Hget & Hne).
      rewrite (awaited_code parse_host req u c Hu Hget Hne).
      right; left. now exists c.
    + rewrite (awaited_no_code parse_host req u Hu Hc). now right; right.
  - rewrite (awaited_throws parse_host req Hu). now left.
Qed.

(** Every call of [listen] in the listener phase names the port worked
    out from the redirect URI, and no host. *)
Lemma request_code_listen (w : World) (p : N) (h : option string) (r : BindResult) :
  In (EvListen p h r) (trace (request_code parse_host w)) ->
  h = None /\ r = bind_result w /\
  exists u, URL.parse parse_host (redirectUri w) = Some u /\ p = listen_port u.
Proof.
  unfold request_code.
  destruct (open_installed w) eqn:Ho.
  2:{ unfold getSpotifyAuthCode. rewrite Ho. simpl.
      intros [H|[H|[]]]; discriminate. }
  destruct (URL.parse parse_host (redirectUri w)) as [u|] eqn:Hu.
  2:{ unfold getSpotifyAuthCode. rewrite Ho, Hu. simpl.
      intros [H|[H|[H|[H|[]]]]]; discriminate. }
  destruct (bind_result w) as [|code] eqn:Hb.
  - rewrite (getSpotifyAuthCode_listening parse_host w (authUrl w) (redirectUri w) u Ho Hu Hb).
    rewrite trace_pair. intros H.
    apply in_app_or in H. destruct H as [H|H].
    + simpl in H.
      destruct H as [H|[H|[H|[H|[H|[H|[H|[H|[]]]]]]]]]; try discriminate.
      injection H as <- <- <-. repeat split; auto. now exists u.
    + exfalso. destruct (callback w) as [req|]; [|contradiction].
      destruct (awaited_trace req) as [E|[(c & E)|E]]; rewrite E in H; simpl in H;
        repeat (destruct H as [H|H]; [discriminate|]); contradiction.
  - rewrite (getSpotifyAuthCode_bind_failed parse_host w (authUrl w) (redirectUri w) code u Ho Hu Hb).
    simpl.
    intros [H|[H|[H|[H|[H|[H|[]]]]]]]; try discriminate.
    injection H as <- <- <-. repeat split; auto. now exists u.
Qed.

(** A run is the preamble, the listener phase, and what follows a
    code. *)
Lemma run_trace (w : World) :
  exists post,
    trace (initializeSpotifyClientWithOAuth parse_host w) =
    (preamble w ++ trace (request_code parse_host w) ++ post)%list /\
    (post = [] \/
     (exists c, post = exchange c) \/
     (exists c tok,
        post = (exchange c ++
                [EvLog "OAuth: Access token obtained. Creating new client with the token...";
                 EvWithConfiguration (_config (session w tok))])%list)).
Proof.
  destruct (completion (request_code parse_host w)) as [c|e|e|] eqn:Hc.
  - destruct (sdk_fetchToken w (client w) c) as [tok|e] eqn:Hf.
    + destruct (truthy tok) eqn:Ht.
      * rewrite (run_with_token parse_host w c tok Hc Hf Ht).
        eexists. split; [reflexivity|]. right; right. now exists c, tok.
      * rewrite (run_without_token parse_host w c tok Hc Hf Ht).
        eexists. split; [reflexivity|]. right; left. now exists c.
    + rewrite (run_fetch_throws parse_host w c e Hc Hf).
      eexists. split; [reflexivity|]. right; left. now exists c.
  - destruct (run_without_code parse_host w) as [T _]; [intros c; congruence|].
    exists []. rewrite T, app_nil_r. auto.
  - destruct (run_without_code parse_host w) as [T _]; [intros c; congruence|].
    exists []. rewrite T, app_nil_r. auto.
  - destruct (run_without_code parse_host w) as [T _]; [intros c; congruence|].
    exists []. rewrite T, app_nil_r. auto.
Qed.

(** Once the port is bound, a launch can no longer come too early. *)
Lemma listening_at_launch_bound (t : list Event) :
  listening_at_launch true t = true.
Proof.
  induction t as [|e t IH]; [reflexivity|].
  simpl. destruct (is_open e); simpl; exact IH.
Qed.

Lemma listening_at_launch_no_open (t : list Event) (b : bool) :
  forallb (fun e => negb (is_open e)) t = true ->
  listening_at_launch b t = true.
Proof.
  revert b. induction t as [|e t IH]; intros b; [reflexivity|].
  simpl. intros H. apply andb_prop in H. destruct H as [He Ht].
  destruct (is_open e); [discriminate|]. now apply IH.
Qed.

End TraceFacts.

(* ================================================================== *)
(** * The query of a request written the plain way *)

Section QueryFacts.

Lemma unreserved_inv (c : ascii) :
  unreserved c = true ->
  visible c = true /\ URL.in_special_query_set c = false /\
  Ascii.eqb c "&" = false /\ Ascii.eqb c "=" = false /\ Ascii.eqb c "#" = false /\
  Ascii.eqb c "+" = false /\ Ascii.eqb c "%" = false.
Proof.
  destruct c as [[] [] [] [] [] [] [] []]; vm_compute; intros H;
    repeat split; try reflexivity; discriminate.
Qed.

Lemma span_app_cont (stop : ascii -> bool) (a b : string) :
  Str.forallb (fun c => negb (stop c)) a = true ->
  Str.span stop (a ++ b) = (a ++ fst (Str.span stop b), snd (Str.span stop b)).
Proof.
  intros Ha. induction a as [|c a IH]; simpl.
  - now destruct (Str.span stop b).
  - simpl in Ha. apply andb_prop in Ha. destruct Ha as [H1 H2].
    destruct (stop c); [discriminate|]. now rewrite (IH H2).
Qed.

Lemma percent_encode_app (inset : ascii -> bool) (a b : string) :
  URL.percent_encode inset (a ++ b) =
  URL.percent_encode inset a ++ URL.percent_encode inset b.
Proof.
  induction a as [|c a IH]; simpl; [reflexivity|].
  destruct (inset c); simpl; now rewrite IH.
Qed.

Lemma percent_encode_plain (inset : ascii -> bool) (s : string) :
  Str.forallb (fun c => negb (inset c)) s = true ->
  URL.percent_encode inset s = s.
Proof.
  induction s as [|c s IH]; simpl; [reflexivity|].
  intros E. apply andb_prop in E. destruct E as [E1 E2].
  destruct (inset c); [discriminate|]. now rewrite (IH E2).
Qed.

Lemma percent_decode_plain (s : string) :
  Str.forallb (fun c => negb (Ascii.eqb c "%")) s = true ->
  URL.percent_decode s = s.
Proof.
  induction s as [|c s IH]; [reflexivity|].
  intros E. simpl in E. apply andb_prop in E. destruct E as [E1 E2].
  apply negb_true_iff in E1.
  change (URL.percent_decode (String c s)) with
    (match s with
     | String h (String l rest) =>
         if Ascii.eqb c "%" then
           match Str.hex_value h, Str.hex_value l with
           | Some a, Some b => String (ascii_of_N (16 * a + b)) (URL.percent_decode rest)
           | _, _ => String c (URL.percent_decode s)
           end
         else String c (URL.percent_decode s)
     | _ => String c (URL.percent_decode s)
     end).
  rewrite E1, (IH E2). now destruct s as [|h [|l rest]].
Qed.

Lemma form_decode_unreserved (s : string) :
  Str.forallb unreserved s = true -> URL.form_decode s = s.
Proof.
  intros E. unfold URL.form_decode.
  assert (M : Str.map (fun c => if Ascii.eqb c "+" then " "%char else c) s = s).
  { induction s as [|c s IH]; simpl; [reflexivity|].
    simpl in E. apply andb_prop in E. destruct E as [E1 E2].
    destruct (unreserved_inv c E1) as (_ & _ & _ & _ & _ & -> & _).
    now rewrite (IH E2). }
  rewrite M. apply percent_decode_plain.
  apply (forallb_impl unreserved); [|exact E].
  intros c Hc. destruct (unreserved_inv c Hc) as (_ & _ & _ & _ & _ & _ & ->).
  reflexivity.
Qed.

Lemma split_on_plain (sep : ascii) (a : string) :
  Str.forallb (fun c => negb (Ascii.eqb c sep)) a = true ->
  Str.split_on sep a = [a] /\
  forall m, Str.split_on sep (a ++ String sep m) = a :: Str.split_on sep m.
Proof.
  induction a as [|c a IH]; simpl.
  - intros _. split; [reflexivity|]. intros m. now rewrite Ascii.eqb_refl.
  - intros E. apply andb_prop in E. destruct E as [E1 E2].
    apply negb_true_iff in E1. rewrite E1.
    destruct (IH E2) as [I1 I2]. rewrite I1. split; [reflexivity|].
    intros m. now rewrite I2.
Qed.

(** The first pair of a query that starts with [code=] and a code of
    unreserved characters. *)
Lemma urlencoded_parse_code (c tail : string) :
  Str.forallb unreserved c = true ->
  match tail with EmptyString => true | String x _ => Ascii.eqb x "&" end = true ->
  URL.get "code" (URL.urlencoded_parse ("code=" ++ c ++ tail)) = Some c.
Proof.
  intros Hc Ht. unfold URL.urlencoded_parse.
  assert (A : Str.forallb (fun x => negb (Ascii.eqb x "&")) ("code=" ++ c) = true).
  { simpl. apply (forallb_impl unreserved); [|exact Hc].
    intros x Hx. destruct (unreserved_inv x Hx) as (_ & _ & -> & _). reflexivity. }
  assert (P : URL.parse_pair ("code=" ++ c) = ("code", c)).
  { unfold URL.parse_pair. simpl Str.span. cbv iota beta.
    now rewrite (form_decode_unreserved c Hc). }
  destruct (split_on_plain "&" ("code=" ++ c) A) as [S1 S2].
  assert (N : Str.is_empty ("code=" ++ c) = false) by reflexivity.
  change ("code=" ++ c ++ tail) with (("code=" ++ c) ++ tail).
  remember ("code=" ++ c) as k eqn:Ek. clear Ek A.
  destruct tail as [|x tail].
  - rewrite append_empty, S1. simpl. rewrite N. simpl. rewrite P. reflexivity.
  - apply Ascii.eqb_eq in Ht. subst x.
    rewrite S2. simpl. rewrite N. simpl. rewrite P. reflexivity.
Qed.

Lemma query_state_after_path (path r : string) :
  Str.forallb (fun x => negb (Ascii.eqb x "?" || Ascii.eqb x "#")) path = true ->
  URL.query_state (path ++ String "?" r) =
  Some (URL.percent_encode URL.in_special_query_set
          (fst (Str.span (fun x => Ascii.eqb x "#") r))).
Proof.
  intros A. unfold URL.query_state.
  rewrite (span_app (fun x => Ascii.eqb x "?" || Ascii.eqb x "#") path
             (String "?" r) A eq_refl).
  now destruct (Str.span (fun x => Ascii.eqb x "#") r).
Qed.

(** The query of a target [path?code=c...]. *)
Lemma query_state_code (path c more : string) :
  plain_path path = true ->
  Str.forallb unreserved c = true ->
  after_code more = true ->
  exists tail,
    URL.query_state (path ++ "?code=" ++ c ++ more) = Some ("code=" ++ c ++ tail) /\
    match tail with EmptyString => true | String x _ => Ascii.eqb x "&" end = true.
Proof.
  intros Hp Hc Hm.
  unfold plain_path in Hp. apply andb_prop in Hp. destruct Hp as [_ Hp].
  assert (A : Str.forallb (fun x => negb (Ascii.eqb x "?" || Ascii.eqb x "#")) path = true).
  { apply (forallb_impl path_char); [|exact Hp].
    intros x Hx. unfold path_char in Hx.
    apply andb_prop in Hx. destruct Hx as [Hx H2].
    apply andb_prop in Hx. destruct Hx as [_ H1].
    apply negb_true_iff in H1. apply negb_true_iff in H2. now rewrite H1, H2. }
  assert (B : Str.forallb (fun x => negb (Ascii.eqb x "#")) ("code=" ++ c) = true).
  { simpl. apply (forallb_impl unreserved); [|exact Hc].
    intros x Hx. destruct (unreserved_inv x Hx) as (_ & _ & _ & _ & -> & _). reflexivity. }
  assert (E : Str.forallb (fun x => negb (URL.in_special_query_set x)) ("code=" ++ c) = true).
  { simpl. apply (forallb_impl unreserved); [|exact Hc].
    intros x Hx. destruct (unreserved_inv x Hx) as (_ & -> & _). reflexivity. }
  change (path ++ "?code=" ++ c ++ more) with (path ++ String "?" (("code=" ++ c) ++ more)).
  remember ("code=" ++ c) as k eqn:Ek.
  rewrite (query_state_after_path path (k ++ more) A).
  rewrite (span_app_cont (fun x => Ascii.eqb x "#") k more B).
  destruct (Str.span (fun x => Ascii.eqb x "#") more) as [mq frag] eqn:Em.
  cbn [fst snd].
  rewrite percent_encode_app, (percent_encode_plain URL.in_special_query_set k E).
  exists (URL.percent_encode URL.in_special_query_set mq).
  split; [subst k; reflexivity|].
  unfold after_code in Hm. apply andb_prop in Hm. destruct Hm as [Hm _].
  destruct more as [|x more]; simpl in Em.
  - injection Em as <- <-. reflexivity.
  - destruct (Ascii.eqb x "#") eqn:Ex.
    + injection Em as <- <-. reflexivity.
    + rewrite orb_false_r in Hm.
      destruct (Str.span (fun x0 => Ascii.eqb x0 "#") more) as [a b].
      injection Em as <- <-. simpl.
      apply Ascii.eqb_eq in Hm. subst x. reflexivity.
Qed.

End QueryFacts.

(* ================================================================== *)
(** * The properties of the flow *)

(** C1.  In every run in which the callback hands over an authorization
    code and the token exchange returns a truthy (non-empty) token, the
    code is non-empty and [initializeSpotifyClientWithOAuth] returns a
    client whose credentials carry exactly that token. *)
Theorem session_carries_token
    (parse_host : string -> option string) (w : World) (c : string) (tok : JsValue) :
  completion (request_code parse_host w) = Returned c ->
  sdk_fetchToken w (client w) c = FetchReturns tok ->
  truthy tok = true ->
  c <> EmptyString /\
  exists s,
    completion (initializeSpotifyClientWithOAuth parse_host w) = Returned s /\
    oAuthToken (authorizationCodeAuthCredentials (_config s)) = Some tok.
Proof.
  intros Hc Hf Ht. split.
  - destruct (getSpotifyAuthCode_returned_inv parse_host w (authUrl w) (redirectUri w) c Hc)
      as (_ & _ & u & req & ru & _ & _ & _ & _ & Hne & _).
    exact Hne.
  - exists (session w tok). split.
    + now rewrite (run_with_token parse_host w c tok Hc Hf Ht).
    + reflexivity.
Qed.

Lemma session_carries_token_witness :
  "ABC123" <> EmptyString /\
  exists s,
    completion (initializeSpotifyClientWithOAuth letters_host w_ok) = Returned s /\
    oAuthToken (authorizationCodeAuthCredentials (_config s)) = Some (JsObject a_token).
Proof.
  apply (session_carries_token letters_host w_ok "ABC123" (JsObject a_token));
    reflexivity.
Defined.




(** Three requests in a row: the second comes on the connection of the
    first and is answered, the third is refused; the promise keeps the
    code of the first. *)
Example later_requests_change_nothing :
  let s := arrivals letters_host listening
             [OnNewConnection (get_callback "/callback?code=ABC123");
              OnOpenConnection (get_callback "/callback?code=OTHER");
              OnNewConnection (get_callback "/callback")] in
  promise s = Fulfilled "ABC123" /\ accepting s = false /\
  outcomes letters_host listening
    [OnNewConnection (get_callback "/callback?code=ABC123");
     OnOpenConnection (get_callback "/callback?code=OTHER");
     OnNewConnection (get_callback "/callback")] = [Fulfilled "ABC123"].
Proof. repeat split. Qed.

(** When [new URL] accepts the rebuilt address and [searchParams.get]
    finds a non-empty code there, the request is answered with status 200 and the success page, the
    server is closed, and the promise is fulfilled with that very
    code. *)
Theorem callback_with_code
    (parse_host : string -> option string) (req : IncomingMessage)
    (u : URL.t) (c : string) :
  URL.parse parse_host (fullUrl req) = Some u ->
  URL.get "code" (URL.searchParams u) = Some c ->
  c <> EmptyString ->
  requestListener parse_host req =
    ([EvWriteHead 200 "text/html"; EvEnd success_page; EvServerClose; EvResolve c],
     Returned tt) /\
  promise (arrive parse_host listening (OnNewConnection req)) = Fulfilled c /\
  accepting (arrive parse_host listening (OnNewConnection req)) = false /\
  completion (awaited (arrive parse_host listening (OnNewConnection req))) = Returned c.
Proof.
  intros Hu Hc Hne.
  pose proof (requestListener_code parse_host req u c Hu Hc Hne) as R.
  split; [exact R|].
  unfold arrive, dispatch. simpl. rewrite R. simpl. auto.
Qed.

Lemma callback_with_code_witness :
  requestListener letters_host (get_callback "/callback?code=ABC123") =
    ([EvWriteHead 200 "text/html"; EvEnd success_page; EvServerClose; EvResolve "ABC123"],
     Returned tt) /\
  promise (arrive letters_host listening
             (OnNewConnection (get_callback "/callback?code=ABC123"))) = Fulfilled "ABC123" /\
  accepting (arrive letters_host listening
               (OnNewConnection (get_callback "/callback?code=ABC123"))) = false /\
  completion (awaited (arrive letters_host listening
                         (OnNewConnection (get_callback "/callback?code=ABC123"))))
  = Returned "ABC123".
Proof.
  apply (callback_with_code letters_host (get_callback "/callback?code=ABC123")
           {| URL.scheme := "http"; URL.host := "localhost";
              URL.port_number := Some 4000%N; URL.query := Some "code=ABC123" |}
           "ABC123");
    [reflexivity | reflexivity | discriminate].
Defined.

(** The same on the request as it is written: a Host header
    [host] or [host:port], and a target [path?code=c] followed by
    nothing, by more parameters or by a fragment, where the code [c] is
    made of unreserved characters.  The promise is fulfilled with the
    code as it stands in the target. *)
Theorem plain_callback_with_code
    (parse_host : string -> option string)
    (h hst port_part buffer path c more : string) (pn : option N) :
  Str.forallb host_char h = true ->
  h <> EmptyString ->
  parse_host h = Some hst ->
  (port_part = EmptyString /\ buffer = EmptyString \/
   port_part = String ":" buffer /\ Str.forallb Str.is_digit buffer = true) ->
  URL.port_state "http" buffer = Some pn ->
  plain_path path = true ->
  Str.forallb unreserved c = true ->
  c <> EmptyString ->
  after_code more = true ->
  requestListener parse_host
    {| headers_host := Some (h ++ port_part); url := path ++ "?code=" ++ c ++ more |} =
  ([EvWriteHead 200 "text/html"; EvEnd success_page; EvServerClose; EvResolve c],
   Returned tt).
Proof.
  intros Hh Hne Hhost Hp Hport Hpath Hc Hcne Hmore.
  set (rest := path ++ "?code=" ++ c ++ more).
  assert (R : after_authority rest = true).
  { unfold after_authority, rest.
    unfold plain_path in Hpath. apply andb_prop in Hpath. destruct Hpath as [P1 P2].
    unfold after_code in Hmore. apply andb_prop in Hmore. destruct Hmore as [_ M2].
    apply andb_true_intro. split.
    - destruct path as [|x path]; [discriminate|]. simpl.
      apply Ascii.eqb_eq in P1. subst x. reflexivity.
    - rewrite forallb_app. apply andb_true_intro. split.
      + apply (forallb_impl path_char); [|exact P2].
        intros x Hx. unfold path_char in Hx.
        apply andb_prop in Hx. destruct Hx as [Hx _].
        apply andb_prop in Hx. now destruct Hx.
      + simpl. rewrite forallb_app, M2, andb_true_r.
        apply (forallb_impl unreserved); [|exact Hc].
        intros x Hx. now destruct (unreserved_inv x Hx). }
  destruct (query_state_code path c more Hpath Hc Hmore) as (tail & Q & T).
  fold rest in Q.
  assert (U : URL.parse parse_host
                (fullUrl {| headers_host := Some (h ++ port_part); url := rest |}) =
              Some {| URL.scheme := "http"; URL.host := hst; URL.port_number := pn;
                      URL.query := Some ("code=" ++ c ++ tail) |}).
  { unfold fullUrl. simpl interpolate. simpl url.
    rewrite (append_assoc h port_part rest).
    change ("http://" ++ h ++ port_part ++ rest)
      with ("http" ++ "://" ++ h ++ port_part ++ rest).
    rewrite (parse_plain parse_host "http" h rest (or_introl eq_refl) Hh Hne R
               port_part buffer Hp).
    now rewrite Hhost, Hport, Q. }
  apply (requestListener_code parse_host _ _ c U); [|exact Hcne].
  unfold URL.searchParams. simpl URL.query.
  now apply urlencoded_parse_code.
Qed.

(** C4, as amended.  A request whose reconstructed URL is valid and
    has no [code] parameter is
    answered with status 400 and the failure page, the server is closed
    and the promise is rejected with "No code found in callback"; the
    run then fails with that error and never calls the token
    endpoint. *)
Theorem callback_without_code
    (parse_host : string -> option string) (w : World) (req : IncomingMessage)
    (ru u : URL.t) :
  open_installed w = true ->
  URL.parse parse_host (redirectUri w) = Some ru ->
  bind_result w = Bound ->
  callback w = Some req ->
  URL.parse parse_host (fullUrl req) = Some u ->
  URL.get "code" (URL.searchParams u) = None ->
  requestListener parse_host req =
    ([EvWriteHead 400 "text/html"; EvEnd failure_page; EvServerClose;
      EvReject (Error "No code found in callback")],
     Returned tt) /\
  promise (arrive parse_host listening (OnNewConnection req)) =
    Rejected (Error "No code found in callback") /\
  completion (initializeSpotifyClientWithOAuth parse_host w) =
    Thrown (Error "No code found in callback") /\
  forall c, ~ In (EvFetchToken c) (trace (initializeSpotifyClientWithOAuth parse_host w)).
Proof.
  intros Ho Hru Hb Hreq Hu Hget.
  assert (Hc : truthy_string (URL.get "code" (URL.searchParams u)) = false)
    by now rewrite Hget.
  pose proof (requestListener_no_code parse_host req u Hu Hc) as R.
  assert (G : request_code parse_host w =
              ([EvImport "open"; EvTurn; EvOpen (authUrl w); EvCreateServer;
                EvListen (listen_port ru) None Bound; EvTurn;
                EvLog ("Listening for Spotify redirect on " ++ redirectUri w); EvTurn;
                EvWriteHead 400 "text/html"; EvEnd failure_page; EvServerClose;
                EvReject (Error "No code found in callback")],
               Thrown (Error "No code found in callback"))).
  { unfold request_code.
    rewrite (getSpotifyAuthCode_listening parse_host w (authUrl w) (redirectUri w) ru Ho Hru Hb).
    rewrite Hreq, (awaited_no_code parse_host req u Hu Hc). reflexivity. }
  destruct (run_without_code parse_host w) as [T C].
  { intros c. rewrite G. discriminate. }
  rewrite G in T, C. simpl in C.
  split; [exact R|]. split.
  { unfold arrive, dispatch. simpl. rewrite R. reflexivity. }
  split; [exact C|].
  intros c. rewrite T. simpl.
  intros H. repeat (destruct H as [H|H]; [discriminate|]). contradiction.
Qed.

Lemma callback_without_code_witness :
  requestListener letters_host (get_callback "/callback?error=access_denied") =
    ([EvWriteHead 400 "text/html"; EvEnd failure_page; EvServerClose;
      EvReject (Error "No code found in callback")],
     Returned tt) /\
  promise (arrive letters_host listening
             (OnNewConnection (get_callback "/callback?error=access_denied"))) =
    Rejected (Error "No code found in callback") /\
  completion (initializeSpotifyClientWithOAuth letters_host w_denied) =
    Thrown (Error "No code found in callback") /\
  forall c, ~ In (EvFetchToken c)
                 (trace (initializeSpotifyClientWithOAuth letters_host w_denied)).
Proof.
  apply (callback_without_code letters_host w_denied
           (get_callback "/callback?error=access_denied")
           {| URL.scheme := "http"; URL.host := "localhost";
              URL.port_number := Some 4000%N; URL.query := None |}
           {| URL.scheme := "http"; URL.host := "localhost";
              URL.port_number := Some 4000%N;
              URL.query := Some "error=access_denied" |});
    reflexivity.
Defined.

(** C5, as amended.  In every run in which the token exchange returns
    a falsy token (undefined, null or the empty string), the run fails with
    "Failed to fetch token!" and no client is ever made with a
    token. *)
Theorem empty_token_fails
    (parse_host : string -> option string) (w : World) (c : string) (tok : JsValue) :
  completion (request_code parse_host w) = Returned c ->
  sdk_fetchToken w (client w) c = FetchReturns tok ->
  truthy tok = false ->
  completion (initializeSpotifyClientWithOAuth parse_host w) =
    Thrown (Error "Failed to fetch token!") /\
  (forall s, completion (initializeSpotifyClientWithOAuth parse_host w) <> Returned s) /\
  forall cfg, ~ In (EvWithConfiguration cfg)
                   (trace (initializeSpotifyClientWithOAuth parse_host w)).
Proof.
  intros Hc Hf Ht.
  rewrite (run_without_token parse_host w c tok Hc Hf Ht).
  split; [reflexivity|]. split; [discriminate|].
  destruct (getSpotifyAuthCode_returned_inv parse_host w (authUrl w) (redirectUri w) c Hc)
    as (_ & _ & u & req & ru & _ & _ & _ & _ & _ & T).
  intros cfg. rewrite trace_pair. unfold request_code. rewrite T. simpl.
  intros H. repeat (destruct H as [H|H]; [discriminate|]). contradiction.
Qed.

Lemma empty_token_fails_witness :
  completion (initializeSpotifyClientWithOAuth letters_host w_no_token) =
    Thrown (Error "Failed to fetch token!") /\
  (forall s, completion (initializeSpotifyClientWithOAuth letters_host w_no_token)
             <> Returned s) /\
  forall cfg, ~ In (EvWithConfiguration cfg)
                   (trace (initializeSpotifyClientWithOAuth letters_host w_no_token)).
Proof.
  apply (empty_token_fails letters_host w_no_token "ABC123" (JsString ""));
    reflexivity.
Defined.

(** The falsy tokens are undefined, null and the empty string; an
    [OAuthToken] object is truthy whatever it holds. *)
Lemma truthy_false_iff (tok : JsValue) :
  truthy tok = false <-> tok = JsUndefined \/ tok = JsNull \/ tok = JsString "".
Proof.
  split.
  - destruct tok as [| |[|a s]|t]; simpl; auto; discriminate.
  - intros [->|[->| ->]]; reflexivity.
Qed.

(** ** Requests and tokens outside these statements *)


(** C3, as stated for every request that carries a non-empty code,
    fails: the query [code=&code=ABC123] carries the code [ABC123], but
    [searchParams.get] reads the first [code], which is empty, and the
    answer is 400 and a rejection. *)
Lemma empty_first_code_rejected :
  In ("code", "ABC123") (URL.urlencoded_parse "code=&code=ABC123") /\
  requestListener letters_host (get_callback "/callback?code=&code=ABC123") =
    ([EvWriteHead 400 "text/html"; EvEnd failure_page; EvServerClose;
      EvReject (Error "No code found in callback")], Returned tt) /\
  completion (awaited (arrive letters_host listening
                         (OnNewConnection (get_callback "/callback?code=&code=ABC123"))))
  = Thrown (Error "No code found in callback").
Proof. repeat split. right. left. reflexivity. Qed.

(** C4, as stated for every request that lacks a code, fails: this one
    lacks a code, its Host header makes [new URL] throw, and there is
    no 400 answer, no rejection and no "No code found in callback":
    the process ends on an uncaught [TypeError]. *)
Lemma no_code_bad_host_unanswered :
  URL.get "code" (URL.urlencoded_parse "error=access_denied") = None /\
  requestListener letters_host bad_host_no_code = ([], Thrown (TypeError "Invalid URL")) /\
  promise (arrive letters_host listening (OnNewConnection bad_host_no_code)) = Unsettled /\
  completion (initializeSpotifyClientWithOAuth letters_host w_bad_host_no_code)
  <> Thrown (Error "No code found in callback") /\
  forall status type,
    ~ In (EvWriteHead status type)
         (trace (initializeSpotifyClientWithOAuth letters_host w_bad_host_no_code)).
Proof.
  repeat split; try discriminate.
  intros status type H. simpl in H.
  repeat (destruct H as [H|H]; [discriminate|]). contradiction.
Qed.

(** C5, as stated for an empty token, fails for the empty token that
    comes as an object: a token object whose access token is the empty
    string passes the guard, and the run returns a client that carries
    it. *)
Lemma empty_access_token_accepted :
  accessToken an_empty_token = EmptyString /\
  truthy (JsObject an_empty_token) = true /\
  completion (initializeSpotifyClientWithOAuth letters_host w_empty_access_token)
  = Returned (session w_empty_access_token (JsObject an_empty_token)) /\
  completion (initializeSpotifyClientWithOAuth letters_host w_empty_access_token)
  <> Thrown (Error "Failed to fetch token!").
Proof. repeat split. discriminate. Qed.

(** C10.  The client a successful run returns has the client id, the
    client secret, the redirect URI, the scopes, the timeout and the
    environment of the initial configuration; the one field that
    differs is the token, absent before and present after. *)
Theorem session_keeps_configuration
    (parse_host : string -> option string) (w : World) (s : Client) :
  completion (initializeSpotifyClientWithOAuth parse_host w) = Returned s ->
  let before := authorizationCodeAuthCredentials (config w) in
  let after := authorizationCodeAuthCredentials (_config s) in
  oAuthClientId after = oAuthClientId before /\
  oAuthClientSecret after = oAuthClientSecret before /\
  oAuthRedirectUri after = oAuthRedirectUri before /\
  oAuthScopes after = oAuthScopes before /\
  timeout (_config s) = timeout (config w) /\
  environment (_config s) = environment (config w) /\
  oAuthToken before = None /\
  exists tok, oAuthToken after = Some tok /\ truthy tok = true.
Proof.
  intros H.
  destruct (run_returned_inv parse_host w s H) as (c & tok & _ & _ & Ht & ->).
  cbv zeta. repeat split. now exists tok.
Qed.

Lemma session_keeps_configuration_witness :
  oAuthClientId (authorizationCodeAuthCredentials (_config (session w_ok (JsObject a_token))))
    = "client" /\
  oAuthToken (authorizationCodeAuthCredentials (config w_ok)) = None /\
  exists tok,
    oAuthToken (authorizationCodeAuthCredentials (_config (session w_ok (JsObject a_token))))
      = Some tok /\ truthy tok = true.
Proof.
  destruct (session_keeps_configuration letters_host w_ok
              (session w_ok (JsObject a_token)))
    as (Hid & _ & _ & _ & _ & _ & Hnone & Htok).
  - reflexivity.
  - split; [exact Hid|]. split; [exact Hnone | exact Htok].
Defined.

(** C6, as amended.  In every run in which the redirect URI parses and
    the port can be bound, the browser is launched first and the call
    of [listen] follows in the same turn: the port is bound before
    control goes back to the event loop, hence before any request can
    be handled. *)
Theorem listen_follows_launch
    (parse_host : string -> option string) (w : World) (u : URL.t) :
  URL.parse parse_host (redirectUri w) = Some u ->
  bind_result w = Bound ->
  listening_at_launch false (trace (initializeSpotifyClientWithOAuth parse_host w)) = true /\
  (open_installed w = true ->
   exists rest,
     trace (initializeSpotifyClientWithOAuth parse_host w) =
     (preamble w ++
      [EvImport "open"; EvTurn; EvOpen (authUrl w); EvCreateServer;
       EvListen (listen_port u) None Bound; EvTurn] ++ rest)%list).
Proof.
  intros Hu Hb.
  destruct (open_installed w) eqn:Ho.
  - destruct (run_trace parse_host w) as (post & T & _).
    rewrite T. clear T. unfold request_code.
    rewrite (getSpotifyAuthCode_listening parse_host w (authUrl w) (redirectUri w) u Ho Hu Hb).
    rewrite trace_pair. split.
    + simpl. apply listening_at_launch_bound.
    + intros _. eexists. simpl. reflexivity.
  - split; [|discriminate].
    destruct (run_without_code parse_host w) as [T _].
    { intros c. unfold request_code, getSpotifyAuthCode. rewrite Ho. discriminate. }
    rewrite T. unfold request_code, getSpotifyAuthCode. rewrite Ho. reflexivity.
Qed.

Lemma listen_follows_launch_witness :
  listening_at_launch false (trace (initializeSpotifyClientWithOAuth letters_host w_ok)) = true.
Proof.
  apply (listen_follows_launch letters_host w_ok
           {| URL.scheme := "http"; URL.host := "localhost";
              URL.port_number := Some 4000%N; URL.query := None |});
    reflexivity.
Defined.

(** C6, as stated, fails: when the port cannot be bound the browser has
    been launched and no listener is listening, in that turn or
    later. *)
Lemma launch_without_listener :
  existsb is_open (trace (initializeSpotifyClientWithOAuth letters_host w_busy)) = true /\
  existsb is_bound (trace (initializeSpotifyClientWithOAuth letters_host w_busy)) = false /\
  listening_at_launch false
    (trace (initializeSpotifyClientWithOAuth letters_host w_busy)) = false.
Proof. repeat split. Qed.

(** C7, as amended.  In every run in which the bind fails, the error of
    the bind ends the process as an uncaught exception (the promise is
    never settled and nothing is thrown to the caller); by then the
    browser has been launched, and nothing else has happened: no token
    exchange, no client with a token. *)
Theorem bind_failure_aborts
    (parse_host : string -> option string) (w : World) (u : URL.t) (code : string) :
  open_installed w = true ->
  URL.parse parse_host (redirectUri w) = Some u ->
  bind_result w = BindFailed code ->
  initializeSpotifyClientWithOAuth parse_host w =
  ([EvNewClient (config w); EvLog "OAuth: Starting Spotify OAuth flow...";
    EvImport "open"; EvTurn; EvOpen (authUrl w); EvCreateServer;
    EvListen (listen_port u) None (BindFailed code); EvTurn],
   Uncaught (SystemError code)).
Proof.
  intros Ho Hu Hb.
  pose proof (getSpotifyAuthCode_bind_failed parse_host w (authUrl w) (redirectUri w)
                code u Ho Hu Hb) as G.
  destruct (run_without_code parse_host w) as [T C].
  { intros c. unfold request_code. rewrite G. discriminate. }
  unfold request_code in T, C. rewrite G in T, C. simpl in T, C.
  destruct (initializeSpotifyClientWithOAuth parse_host w) as [t r].
  simpl in T, C. now subst.
Qed.

Lemma bind_failure_aborts_witness :
  initializeSpotifyClientWithOAuth letters_host w_busy =
  ([EvNewClient (config w_busy); EvLog "OAuth: Starting Spotify OAuth flow...";
    EvImport "open"; EvTurn; EvOpen (authUrl w_busy); EvCreateServer;
    EvListen 4000 None (BindFailed "EADDRINUSE"); EvTurn],
   Uncaught (SystemError "EADDRINUSE")).
Proof.
  apply (bind_failure_aborts letters_host w_busy
           {| URL.scheme := "http"; URL.host := "localhost";
              URL.port_number := Some 4000%N; URL.query := None |}
           "EADDRINUSE");
    reflexivity.
Defined.

(** C7, as stated, fails: in a run whose bind fails the browser has
    already been sent to the provider, and the caller is not thrown the
    error of the bind. *)
Lemma bind_failure_after_launch :
  bind_result w_busy = BindFailed "EADDRINUSE" /\
  existsb reaches_provider
    (trace (initializeSpotifyClientWithOAuth letters_host w_busy)) = true /\
  completion (initializeSpotifyClientWithOAuth letters_host w_busy)
    <> Thrown (SystemError "EADDRINUSE").
Proof. repeat split. discriminate. Qed.

(** C8, as amended.  Every call of [listen] in a run names the port
    worked out from the redirect URI and no host: the server listens on
    the unspecified address, not on the loopback interface only. *)
Theorem listen_names_no_host
    (parse_host : string -> option string) (w : World)
    (p : N) (h : option string) (r : BindResult) :
  In (EvListen p h r) (trace (initializeSpotifyClientWithOAuth parse_host w)) ->
  h = None /\ is_loopback h = false /\
  exists u, URL.parse parse_host (redirectUri w) = Some u /\ p = listen_port u.
Proof.
  intros H.
  destruct (run_trace parse_host w) as (post & T & P).
  rewrite T in H. clear T.
  apply in_app_or in H. destruct H as [H|H].
  { simpl in H. destruct H as [H|[H|[]]]; discriminate. }
  apply in_app_or in H. destruct H as [H|H].
  - destruct (request_code_listen parse_host w p h r H) as (-> & _ & E).
    auto.
  - exfalso.
    destruct P as [->|[(c & ->)|(c & tok & ->)]]; simpl in H;
      repeat (destruct H as [H|H]; [discriminate|]); contradiction.
Qed.

Lemma listen_names_no_host_witness :
  (None : option string) = None /\ is_loopback None = false /\
  exists u, URL.parse letters_host (redirectUri w_ok) = Some u /\ 4000%N = listen_port u.
Proof.
  apply (listen_names_no_host letters_host w_ok 4000%N None Bound).
  simpl. tauto.
Defined.

(** C8, as stated, fails: the call of [listen] of an ordinary run names
    no loopback host. *)
Lemma listen_not_loopback_only :
  forallb listens_on_loopback_only
    (trace (initializeSpotifyClientWithOAuth letters_host w_ok)) = false.
Proof. reflexivity. Qed.

(** A run with the redirect URI [http://localhost:80/callback]: the
    URL keeps no port, [Number] reads 0, the server is told to listen
    on 4000, and the run waits there for a request. *)
Theorem explicit_default_port_binds_4000 :
  option_map URL.port (URL.parse letters_host "http://localhost:80/callback") = Some "" /\
  option_map listen_port (URL.parse letters_host "http://localhost:80/callback")
    = Some 4000%N /\
  trace (initializeSpotifyClientWithOAuth letters_host w_port80) =
  [EvNewClient (config w_port80); EvLog "OAuth: Starting Spotify OAuth flow...";
   EvImport "open"; EvTurn; EvOpen (authUrl w_port80); EvCreateServer;
   EvListen 4000 None Bound; EvTurn;
   EvLog "Listening for Spotify redirect on http://localhost:80/callback"; EvTurn] /\
  completion (initializeSpotifyClientWithOAuth letters_host w_port80) = Pending.
Proof. repeat split. Qed.

(** Read on the text of the redirect URI.  For a redirect URI written
    [scheme://host], [:port], and a path, query or fragment, with one of
    the schemes
    [http], [https], [ws], [wss], [ftp]: without a port the listener
    binds 4000; with the explicit port 0 it binds 4000; with an explicit
    port from 1 to 65535 that is not the default port of the scheme it
    binds exactly that port. *)
Theorem listen_port_of_plain_uri
    (parse_host : string -> option string) (sch h hst rest : string) :
  In sch special_schemes ->
  Str.forallb host_char h = true ->
  h <> EmptyString ->
  parse_host h = Some hst ->
  after_authority rest = true ->
  option_map listen_port (URL.parse parse_host (sch ++ "://" ++ h ++ rest)) = Some 4000%N /\
  forall (ds : string) (p : N),
    Str.forallb Str.is_digit ds = true ->
    ds <> EmptyString ->
    URL.decimal ds = Some p ->
    (p <= 65535)%N ->
    URL.default_port sch <> Some p ->
    option_map listen_port (URL.parse parse_host (sch ++ "://" ++ h ++ ":" ++ ds ++ rest))
    = Some (if (p =? 0)%N then 4000%N else p).
Proof.
  intros Hsch Hh Hne Hhost Hrest. split.
  - pose proof (parse_plain parse_host sch h rest Hsch Hh Hne Hrest "" ""
                  (or_introl (conj eq_refl eq_refl))) as P.
    simpl append in P at 3. rewrite P, Hhost. simpl.
    now rewrite listen_port_eq.
  - intros ds p Hd Hds Hdec Hle Hdef.
    pose proof (parse_plain parse_host sch h rest Hsch Hh Hne Hrest (String ":" ds) ds
                  (or_intror (conj eq_refl Hd))) as P.
    change (String ":" ds ++ rest) with (":" ++ ds ++ rest) in P.
    rewrite P, Hhost.
    destruct (parse_scheme_special sch "" Hsch) as [_ (d & D)].
    assert (E : Str.is_empty ds = false) by (destruct ds; [congruence | reflexivity]).
    rewrite (port_state_kept sch ds p d Hdec E Hle D) by congruence.
    simpl. now rewrite listen_port_eq.
Qed.

Lemma listen_port_of_plain_uri_witness :
  option_map listen_port (URL.parse letters_host "http://localhost/callback") = Some 4000%N /\
  option_map listen_port (URL.parse letters_host "http://localhost:8888/callback")
  = Some 8888%N.
Proof.
  destruct (listen_port_of_plain_uri letters_host "http" "localhost" "localhost" "/callback")
    as [A B].
  - simpl. tauto.
  - reflexivity.
  - discriminate.
  - reflexivity.
  - reflexivity.
  - split; [exact A|].
    apply (B "8888" 8888%N); [reflexivity | discriminate | reflexivity | | discriminate].
    vm_compute. discriminate.
Defined.

(** C9, as stated, fails: the explicit ports 0 and 80 of these redirect
    URIs are not the port the listener binds. *)
Lemma explicit_port_not_bound :
  option_map URL.port (URL.parse letters_host "http://localhost:0/callback") = Some "0" /\
  option_map listen_port (URL.parse letters_host "http://localhost:0/callback")
    = Some 4000%N /\
  option_map listen_port (URL.parse letters_host "http://localhost:80/callback")
    = Some 4000%N.
Proof. repeat split. Qed.

(* ================================================================== *)
(** * Further properties of the authentication *)

Section MoreFlowFacts.

Variable parse_host : string -> option string.

Lemma parse_empty : URL.parse parse_host "" = None.
Proof. reflexivity. Qed.

Lemma redirectUri_unset (w : World) :
  truthy_string (SPOTIFY_REDIRECT_URI w) = false -> redirectUri w = "".
Proof. unfold redirectUri, string_or. now intros ->. Qed.

Lemma getSpotifyAuthCode_unparsable (w : World) (a uri : string) :
  open_installed w = true ->
  URL.parse parse_host uri = None ->
  getSpotifyAuthCode parse_host w a uri =
  ([EvImport "open"; EvTurn; EvOpen a; EvCreateServer], Thrown (TypeError "Invalid URL")).
Proof.
  intros Ho Hu. unfold getSpotifyAuthCode. now rewrite Ho, Hu.
Qed.

Lemma getSpotifyAuthCode_no_open (w : World) (a uri : string) :
  open_installed w = false ->
  getSpotifyAuthCode parse_host w a uri =
  ([EvImport "open"; EvTurn], Thrown (ModuleNotFound "open")).
Proof.
  intros Ho. unfold getSpotifyAuthCode. now rewrite Ho.
Qed.

(** A run whose listener phase throws ends there, with that error. *)
Lemma run_listener_throws (w : World) (t : list Event) (e : JsError) :
  request_code parse_host w = (t, Thrown e) ->
  initializeSpotifyClientWithOAuth parse_host w = ((preamble w ++ t)%list, Thrown e).
Proof.
  intros G.
  destruct (run_without_code parse_host w) as [T C].
  { intros c. rewrite G. discriminate. }
  rewrite G in T, C. simpl in T, C.
  destruct (initializeSpotifyClientWithOAuth parse_host w) as [t' r].
  simpl in T, C. now subst.
Qed.

Lemma run_listener_uncaught (w : World) (t : list Event) (e : JsError) :
  request_code parse_host w = (t, Uncaught e) ->
  initializeSpotifyClientWithOAuth parse_host w = ((preamble w ++ t)%list, Uncaught e).
Proof.
  intros G.
  destruct (run_without_code parse_host w) as [T C].
  { intros c. rewrite G. discriminate. }
  rewrite G in T, C. simpl in T, C.
  destruct (initializeSpotifyClientWithOAuth parse_host w) as [t' r].
  simpl in T, C. now subst.
Qed.

(** The listener phase never issues a call of the coordinator. *)
Lemma request_code_events (w : World) :
  forallb listener_phase_event (trace (request_code parse_host w)) = true.
Proof.
  unfold request_code.
  destruct (open_installed w) eqn:Ho.
  2:{ now rewrite (getSpotifyAuthCode_no_open w _ _ Ho). }
  destruct (URL.parse parse_host (redirectUri w)) as [u|] eqn:Hu.
  2:{ now rewrite (getSpotifyAuthCode_unparsable w _ _ Ho Hu). }
  destruct (bind_result w) as [|code] eqn:Hb.
  - rewrite (getSpotifyAuthCode_listening parse_host w (authUrl w) (redirectUri w) u Ho Hu Hb).
    rewrite trace_pair, List.forallb_app. simpl.
    destruct (callback w) as [req|]; [|reflexivity].
    destruct (awaited_trace parse_host req) as [E|[(c & E)|E]]; now rewrite E.
  - now rewrite (getSpotifyAuthCode_bind_failed parse_host w (authUrl w) (redirectUri w)
                   code u Ho Hu Hb).
Qed.

(** What follows the listener phase is there only when a code came
    out of it, and it is the exchange of that code. *)
Lemma run_trace_code (w : World) :
  exists post,
    trace (initializeSpotifyClientWithOAuth parse_host w) =
    (preamble w ++ trace (request_code parse_host w) ++ post)%list /\
    (post = [] \/
     exists c, completion (request_code parse_host w) = Returned c /\
       (post = exchange c \/
        exists tok,
          post = (exchange c ++
                  [EvLog "OAuth: Access token obtained. Creating new client with the token...";
                   EvWithConfiguration (_config (session w tok))])%list)).
Proof.
  destruct (completion (request_code parse_host w)) as [c|e|e|] eqn:Hc.
  - destruct (sdk_fetchToken w (client w) c) as [tok|e] eqn:Hf.
    + destruct (truthy tok) eqn:Ht.
      * rewrite (run_with_token parse_host w c tok Hc Hf Ht).
        eexists. split; [reflexivity|]. right. exists c. split; [reflexivity|].
        right. now exists tok.
      * rewrite (run_without_token parse_host w c tok Hc Hf Ht).
        eexists. split; [reflexivity|]. right. exists c. auto.
    + rewrite (run_fetch_throws parse_host w c e Hc Hf).
      eexists. split; [reflexivity|]. right. exists c. auto.
  - destruct (run_without_code parse_host w) as [T _]; [intros c; congruence|].
    exists []. rewrite T, app_nil_r. auto.
  - destruct (run_without_code parse_host w) as [T _]; [intros c; congruence|].
    exists []. rewrite T, app_nil_r. auto.
  - destruct (run_without_code parse_host w) as [T _]; [intros c; congruence|].
    exists []. rewrite T, app_nil_r. auto.
Qed.

(** A URL that parses has a port of at most 65535. *)
Lemma port_state_range (sch buffer : string) (p : N) :
  URL.port_state sch buffer = Some (Some p) -> (p <= 65535)%N.
Proof.
  unfold URL.port_state.
  destruct (Str.is_empty buffer); [discriminate|].
  destruct (URL.decimal buffer) as [q|]; [|discriminate].
  destruct (N.ltb_spec 65535 q); [discriminate|].
  destruct (URL.default_port sch) as [d|].
  - destruct (q =? d)%N; [discriminate|]. intros [= <-]. assumption.
  - intros [= <-]. assumption.
Qed.

Lemma parse_port_range (input : string) (u : URL.t) (p : N) :
  URL.parse parse_host input = Some u ->
  URL.port_number u = Some p -> (p <= 65535)%N.
Proof.
  unfold URL.parse.
  destruct (URL.parse_scheme (URL.clean input)) as [[sch rest]|]; [|discriminate].
  destruct (URL.default_port sch).
  - unfold URL.authority_state.
    destruct (Str.span URL.ends_authority (URL.skip_slashes rest)) as [authority rest'].
    destruct (URL.split_host false _) as [h buffer].
    destruct (Str.is_empty h); [discriminate|].
    destruct (parse_host h); [|discriminate].
    destruct (URL.port_state sch _) as [pn|] eqn:P; [|discriminate].
    intros [= <-]. simpl. intros ->.
    exact (port_state_range _ _ _ P).
  - destruct (String.eqb sch "file").
    + unfold URL.file_state.
      destruct rest as [|a [|b r]]; try (intros [= <-]; discriminate).
      destruct (URL.is_slash a && URL.is_slash b); [|intros [= <-]; discriminate].
      destruct (Str.span URL.ends_authority r) as [buffer rest'].
      destruct (URL.windows_drive buffer || Str.is_empty buffer);
        [intros [= <-]; discriminate|].
      destruct (parse_host buffer); [|discriminate].
      intros [= <-]. discriminate.
    + unfold URL.other_state.
      assert (A : forall s, URL.other_authority_state parse_host sch s = Some u ->
                            URL.port_number u = Some p -> (p <= 65535)%N).
      { intros s. unfold URL.other_authority_state.
        destruct (Str.span URL.ends_other_authority s) as [authority rest'].
        destruct (match Str.after_last "@" authority with
                  | Some hp => (true, hp) | None => (false, authority) end)
          as [at_seen hostport].
        destruct (URL.split_host false hostport) as [h buffer].
        destruct (Str.is_empty h && _); [discriminate|].
        destruct (URL.opaque_host parse_host h); [|discriminate].
        destruct (URL.port_state sch _) as [pn|] eqn:P; [|discriminate].
        intros [= <-]. simpl. intros ->.
        exact (port_state_range _ _ _ P). }
      destruct rest as [|a rest1]; [intros [= <-]; discriminate|].
      destruct a as [[] [] [] [] [] [] [] []];
        try (cbv beta iota; intros [= <-]; discriminate).
      destruct rest1 as [|b r]; [intros [= <-]; discriminate|].
      destruct b as [[] [] [] [] [] [] [] []];
        try (cbv beta iota; intros [= <-]; discriminate).
      apply A.
Qed.

End MoreFlowFacts.

(** X1.  With no redirect URI in the environment (unset or empty) the
    run throws [TypeError: Invalid URL]; by then the browser has been
    launched and the server made, and [listen] is never called. *)
Theorem unset_redirect_uri_throws (parse_host : string -> option string) (w : World) :
  truthy_string (SPOTIFY_REDIRECT_URI w) = false ->
  open_installed w = true ->
  initializeSpotifyClientWithOAuth parse_host w =
  ([EvNewClient (config w); EvLog "OAuth: Starting Spotify OAuth flow...";
    EvImport "open"; EvTurn; EvOpen (authUrl w); EvCreateServer],
   Thrown (TypeError "Invalid URL")).
Proof.
  intros Hu Ho.
  apply (run_listener_throws parse_host w
           [EvImport "open"; EvTurn; EvOpen (authUrl w); EvCreateServer]).
  unfold request_code. apply getSpotifyAuthCode_unparsable; [exact Ho|].
  rewrite (redirectUri_unset w Hu). apply parse_empty.
Qed.

Lemma unset_redirect_uri_throws_witness :
  completion (initializeSpotifyClientWithOAuth letters_host w_unset) =
  Thrown (TypeError "Invalid URL").
Proof.
  rewrite (unset_redirect_uri_throws letters_host w_unset); reflexivity.
Defined.

(** X2.  When [fetchToken] throws, the run throws the same error: the
    token endpoint has been called with the code of the callback, and
    no client with a token is made. *)
Theorem fetch_error_propagates
    (parse_host : string -> option string) (w : World) (c : string) (e : JsError) :
  completion (request_code parse_host w) = Returned c ->
  sdk_fetchToken w (client w) c = FetchThrows e ->
  completion (initializeSpotifyClientWithOAuth parse_host w) = Thrown e /\
  In (EvFetchToken c) (trace (initializeSpotifyClientWithOAuth parse_host w)) /\
  forall cfg, ~ In (EvWithConfiguration cfg)
                   (trace (initializeSpotifyClientWithOAuth parse_host w)).
Proof.
  intros Hc Hf.
  rewrite (run_fetch_throws parse_host w c e Hc Hf).
  split; [reflexivity|]. rewrite trace_pair. split.
  - apply in_or_app. right. apply in_or_app. right. simpl. auto.
  - intros cfg H.
    apply in_app_or in H. destruct H as [H|H].
    { simpl in H. destruct H as [H|[H|[]]]; discriminate. }
    apply in_app_or in H. destruct H as [H|H].
    + pose proof (request_code_events parse_host w) as F.
      rewrite forallb_forall in F. specialize (F _ H). discriminate.
    + simpl in H. repeat (destruct H as [H|H]; [discriminate|]). contradiction.
Qed.

Lemma fetch_error_propagates_witness :
  completion (initializeSpotifyClientWithOAuth letters_host w_fetch_throws) =
    Thrown (SdkError "invalid_grant") /\
  In (EvFetchToken "ABC123")
     (trace (initializeSpotifyClientWithOAuth letters_host w_fetch_throws)) /\
  forall cfg, ~ In (EvWithConfiguration cfg)
                   (trace (initializeSpotifyClientWithOAuth letters_host w_fetch_throws)).
Proof.
  apply (fetch_error_propagates letters_host w_fetch_throws "ABC123"
           (SdkError "invalid_grant")); reflexivity.
Defined.

(** X3.  When the package [open] cannot be imported the run throws
    before anything else happens: no browser, no server, no call of
    [listen], no token exchange. *)
Theorem missing_open_module_throws (parse_host : string -> option string) (w : World) :
  open_installed w = false ->
  initializeSpotifyClientWithOAuth parse_host w =
  ([EvNewClient (config w); EvLog "OAuth: Starting Spotify OAuth flow...";
    EvImport "open"; EvTurn],
   Thrown (ModuleNotFound "open")).
Proof.
  intros Ho.
  apply (run_listener_throws parse_host w [EvImport "open"; EvTurn]).
  unfold request_code. now apply getSpotifyAuthCode_no_open.
Qed.

Lemma missing_open_module_throws_witness :
  completion (initializeSpotifyClientWithOAuth letters_host w_no_open) =
  Thrown (ModuleNotFound "open").
Proof.
  rewrite (missing_open_module_throws letters_host w_no_open); reflexivity.
Defined.

(** C9, as amended.  For every redirect URI that [new URL] accepts,
    whatever its scheme: the listener binds 4000 when the URL has no
    port and when its port is 0, and binds exactly the port of the URL
    when that is from 1 to 65535.  The port of the URL is what the port
    state makes of the digits after the host: no port when there are
    none, the number they spell when that is at most 65535 and is not
    the default port of the scheme.  On the text of a URI written the
    plain way this is: 4000 without a port and with the port 0, else
    the port written. *)
Theorem listen_port_of_redirect_uri (parse_host : string -> option string) :
  (forall (uri : string) (u : URL.t),
     URL.parse parse_host uri = Some u ->
     listen_port u =
       match URL.port_number u with
       | Some p => if (p =? 0)%N then 4000%N else p
       | None => 4000%N
       end /\
     (1 <= listen_port u <= 65535)%N) /\
  (forall (sch buffer : string),
     (buffer = EmptyString -> URL.port_state sch buffer = Some None) /\
     forall p : N,
       buffer <> EmptyString ->
       URL.decimal buffer = Some p ->
       (p <= 65535)%N ->
       URL.default_port sch <> Some p ->
       URL.port_state sch buffer = Some (Some p)) /\
  (forall (sch h hst rest : string),
     In sch special_schemes ->
     Str.forallb host_char h = true ->
     h <> EmptyString ->
     parse_host h = Some hst ->
     after_authority rest = true ->
     option_map listen_port (URL.parse parse_host (sch ++ "://" ++ h ++ rest))
     = Some 4000%N /\
     forall (ds : string) (p : N),
       Str.forallb Str.is_digit ds = true ->
       ds <> EmptyString ->
       URL.decimal ds = Some p ->
       (p <= 65535)%N ->
       URL.default_port sch <> Some p ->
       option_map listen_port (URL.parse parse_host (sch ++ "://" ++ h ++ ":" ++ ds ++ rest))
       = Some (if (p =? 0)%N then 4000%N else p)).
Proof.
  split; [|split].
  - intros uri u Hu. rewrite listen_port_eq. split; [reflexivity|].
    destruct (URL.port_number u) as [p|] eqn:Hp; [|lia].
    pose proof (parse_port_range parse_host uri u p Hu Hp).
    destruct (N.eqb_spec p 0); lia.
  - intros sch buffer. split.
    + intros ->. reflexivity.
    + intros p Hne Hdec Hle Hdef. unfold URL.port_state.
      destruct buffer as [|a b]; [congruence|]. cbn [Str.is_empty].
      rewrite Hdec.
      destruct (N.ltb_spec 65535 p) as [L|_]; [lia|].
      destruct (URL.default_port sch) as [d|]; [|reflexivity].
      destruct (N.eqb_spec p d) as [->|_]; [congruence | reflexivity].
  - intros sch h hst rest Hsch Hh Hne Hhost Hrest.
    exact (listen_port_of_plain_uri parse_host sch h hst rest Hsch Hh Hne Hhost Hrest).
Qed.

Lemma listen_port_of_redirect_uri_witness :
  listen_port {| URL.scheme := "myapp"; URL.host := "localhost";
                 URL.port_number := Some 5005%N; URL.query := None |} = 5005%N /\
  URL.port_state "myapp" "5005" = Some (Some 5005%N) /\
  option_map listen_port (URL.parse letters_host "https://localhost/callback") = Some 4000%N.
Proof.
  split; [|split].
  - apply (proj1 (proj1 (listen_port_of_redirect_uri letters_host)
                    "myapp://localhost:5005/callback" _ eq_refl)).
  - apply (proj2 (proj1 (proj2 (listen_port_of_redirect_uri letters_host)) "myapp" "5005")
             5005%N);
      [discriminate | reflexivity | vm_compute; discriminate | vm_compute; discriminate].
  - apply (proj1 (proj2 (proj2 (listen_port_of_redirect_uri letters_host))
                    "https" "localhost" "localhost" "/callback"
                    (or_intror (or_introl eq_refl)) eq_refl
                    ltac:(discriminate) eq_refl eq_refl)).
Defined.

(** X4.  Whatever the redirect URI, the port handed to [listen] lies
    between 1 and 65535: never 0, which would let the system pick a
    port, and never out of range. *)
Theorem listen_port_in_range
    (parse_host : string -> option string) (uri : string) (u : URL.t) :
  URL.parse parse_host uri = Some u ->
  (1 <= listen_port u <= 65535)%N.
Proof.
  intros Hu. rewrite listen_port_eq.
  destruct (URL.port_number u) as [p|] eqn:Hp; [|lia].
  pose proof (parse_port_range parse_host uri u p Hu Hp).
  destruct (N.eqb_spec p 0); lia.
Qed.

Lemma listen_port_in_range_witness :
  (1 <= listen_port {| URL.scheme := "http"; URL.host := "localhost";
                       URL.port_number := Some 4000%N; URL.query := None |}
   <= 65535)%N.
Proof.
  apply (listen_port_in_range letters_host "http://localhost:4000/callback").
  reflexivity.
Defined.

Lemma default_port_range (sch : string) (d : N) :
  URL.default_port sch = Some d -> (d <= 65535)%N.
Proof.
  unfold URL.default_port.
  repeat (match goal with |- context [String.eqb ?a ?b] => destruct (String.eqb a b) end;
          [intros [= <-]; lia|]).
  discriminate.
Qed.

Lemma port_state_too_big (sch buffer : string) (p : N) :
  URL.decimal buffer = Some p -> (65535 < p)%N ->
  URL.port_state sch buffer = None.
Proof.
  intros Hd Hp. unfold URL.port_state.
  destruct buffer as [|a b].
  - simpl in Hd. injection Hd as <-. lia.
  - simpl Str.is_empty. cbv iota. rewrite Hd.
    destruct (N.ltb_spec 65535 p); [reflexivity | lia].
Qed.

(** X5.  A redirect URI that spells out the default port of its scheme
    ([http://host:80/...], also with leading zeros) makes the listener
    bind 4000, not the port that is written. *)
Theorem default_port_binds_4000
    (parse_host : string -> option string) (sch h hst rest ds : string) (d : N) :
  In sch special_schemes ->
  Str.forallb host_char h = true ->
  h <> EmptyString ->
  parse_host h = Some hst ->
  after_authority rest = true ->
  Str.forallb Str.is_digit ds = true ->
  URL.decimal ds = Some d ->
  URL.default_port sch = Some d ->
  option_map URL.port (URL.parse parse_host (sch ++ "://" ++ h ++ ":" ++ ds ++ rest))
    = Some "" /\
  option_map listen_port (URL.parse parse_host (sch ++ "://" ++ h ++ ":" ++ ds ++ rest))
    = Some 4000%N.
Proof.
  intros Hsch Hh Hne Hhost Hrest Hd Hdec Hdef.
  pose proof (parse_plain parse_host sch h rest Hsch Hh Hne Hrest (String ":" ds) ds
                (or_intror (conj eq_refl Hd))) as P.
  change (String ":" ds ++ rest) with (":" ++ ds ++ rest) in P.
  rewrite P, Hhost.
  rewrite (port_state_default sch ds d Hdec (default_port_range sch d Hdef) Hdef).
  split; reflexivity.
Qed.

Lemma default_port_binds_4000_witness :
  option_map URL.port (URL.parse letters_host "https://localhost:0443/callback")
    = Some "" /\
  option_map listen_port (URL.parse letters_host "https://localhost:0443/callback")
    = Some 4000%N.
Proof.
  apply (default_port_binds_4000 letters_host "https" "localhost" "localhost"
           "/callback" "0443" 443%N);
    try reflexivity; [simpl; tauto | discriminate].
Defined.

(** X6.  A redirect URI whose port is above 65535 is no URL: the run
    throws [TypeError: Invalid URL] after the browser has been
    launched, and [listen] is never called. *)
Theorem port_out_of_range_throws
    (parse_host : string -> option string) (w : World) (sch h rest ds : string) (p : N) :
  open_installed w = true ->
  redirectUri w = sch ++ "://" ++ h ++ ":" ++ ds ++ rest ->
  In sch special_schemes ->
  Str.forallb host_char h = true ->
  h <> EmptyString ->
  after_authority rest = true ->
  Str.forallb Str.is_digit ds = true ->
  URL.decimal ds = Some p ->
  (65535 < p)%N ->
  initializeSpotifyClientWithOAuth parse_host w =
  ([EvNewClient (config w); EvLog "OAuth: Starting Spotify OAuth flow...";
    EvImport "open"; EvTurn; EvOpen (authUrl w); EvCreateServer],
   Thrown (TypeError "Invalid URL")).
Proof.
  intros Ho Huri Hsch Hh Hne Hrest Hd Hdec Hp.
  apply (run_listener_throws parse_host w
           [EvImport "open"; EvTurn; EvOpen (authUrl w); EvCreateServer]).
  unfold request_code. apply getSpotifyAuthCode_unparsable; [exact Ho|].
  rewrite Huri.
  pose proof (parse_plain parse_host sch h rest Hsch Hh Hne Hrest (String ":" ds) ds
                (or_intror (conj eq_refl Hd))) as P.
  change (String ":" ds ++ rest) with (":" ++ ds ++ rest) in P.
  rewrite P, (port_state_too_big sch ds p Hdec Hp).
  now destruct (parse_host h).
Qed.

Lemma port_out_of_range_throws_witness :
  completion (initializeSpotifyClientWithOAuth letters_host w_port99999) =
  Thrown (TypeError "Invalid URL").
Proof.
  rewrite (port_out_of_range_throws letters_host w_port99999 "http" "localhost"
             "/callback" "99999" 99999%N);
    try reflexivity; [simpl; tauto | discriminate].
Defined.

(** A call of the token endpoint carries the code that came out of the
    listener phase. *)
Lemma fetch_token_inv
    (parse_host : string -> option string) (w : World) (c : string) :
  In (EvFetchToken c) (trace (initializeSpotifyClientWithOAuth parse_host w)) ->
  completion (request_code parse_host w) = Returned c /\ c <> EmptyString.
Proof.
  intros H.
  assert (R : completion (request_code parse_host w) = Returned c).
  { destruct (run_trace_code parse_host w) as (post & T & P).
    rewrite T in H. clear T.
    apply in_app_or in H. destruct H as [H|H].
    { simpl in H. destruct H as [H|[H|[]]]; discriminate. }
    apply in_app_or in H. destruct H as [H|H].
    - pose proof (request_code_events parse_host w) as F.
      rewrite forallb_forall in F. specialize (F _ H). discriminate.
    - destruct P as [->|(c' & Hc' & [->|(tok & ->)])]; [contradiction| |];
        simpl in H;
        repeat (destruct H as [H|H];
                [first [discriminate | injection H as <-; exact Hc']|]);
        contradiction. }
  split; [exact R|].
  destruct (getSpotifyAuthCode_returned_inv parse_host w (authUrl w) (redirectUri w) c R)
    as (_ & _ & u & req & ru & _ & _ & _ & _ & Hne & _).
  exact Hne.
Qed.


(** X7.  The token endpoint is never called with anything but the code
    the callback delivered, and that code is not empty. *)
Theorem token_requested_with_callback_code
    (parse_host : string -> option string) (w : World) (c : string) :
  In (EvFetchToken c) (trace (initializeSpotifyClientWithOAuth parse_host w)) ->
  completion (request_code parse_host w) = Returned c /\ c <> EmptyString.
Proof.
  intros H.
  assert (R : completion (request_code parse_host w) = Returned c).
  { destruct (run_trace_code parse_host w) as (post & T & P).
    rewrite T in H. clear T.
    apply in_app_or in H. destruct H as [H|H].
    { simpl in H. destruct H as [H|[H|[]]]; discriminate. }
    apply in_app_or in H. destruct H as [H|H].
    - pose proof (request_code_events parse_host w) as F.
      rewrite forallb_forall in F. specialize (F _ H). discriminate.
    - destruct P as [->|(c' & Hc' & [->|(tok & ->)])]; [contradiction| |];
        simpl in H;
        repeat (destruct H as [H|H];
                [first [discriminate | injection H as <-; exact Hc']|]);
        contradiction. }
  split; [exact R|].
  destruct (getSpotifyAuthCode_returned_inv parse_host w (authUrl w) (redirectUri w) c R)
    as (_ & _ & u & req & ru & _ & _ & _ & _ & Hne & _).
  exact Hne.
Qed.

Lemma token_requested_with_callback_code_witness :
  completion (request_code letters_host w_ok) = Returned "ABC123" /\
  "ABC123" <> EmptyString.
Proof.
  apply (token_requested_with_callback_code letters_host w_ok "ABC123").
  simpl. tauto.
Defined.

(** X8.  The run returns a client exactly when the callback delivered
    a code and [fetchToken] returned a truthy token for it; the client
    is then the initial one with that token added. *)
Theorem run_returns_iff
    (parse_host : string -> option string) (w : World) (s : Client) :
  completion (initializeSpotifyClientWithOAuth parse_host w) = Returned s <->
  exists c tok,
    completion (request_code parse_host w) = Returned c /\
    sdk_fetchToken w (client w) c = FetchReturns tok /\
    truthy tok = true /\
    s = session w tok.
Proof.
  split.
  - apply run_returned_inv.
  - intros (c & tok & Hc & Hf & Ht & ->).
    now rewrite (run_with_token parse_host w c tok Hc Hf Ht).
Qed.

(** X9.  A request whose Host header carries a port above 65535 makes
    the listener throw on [new URL]: nothing is answered, the promise
    is not settled, and the exception, caught by nobody, ends the
    process. *)
Theorem bad_host_header_crashes
    (parse_host : string -> option string) (w : World) (ru : URL.t)
    (h ds target : string) (p : N) :
  open_installed w = true ->
  URL.parse parse_host (redirectUri w) = Some ru ->
  bind_result w = Bound ->
  callback w = Some {| headers_host := Some (h ++ ":" ++ ds); url := target |} ->
  Str.forallb host_char h = true ->
  h <> EmptyString ->
  Str.forallb Str.is_digit ds = true ->
  URL.decimal ds = Some p ->
  (65535 < p)%N ->
  after_authority target = true ->
  initializeSpotifyClientWithOAuth parse_host w =
  ([EvNewClient (config w); EvLog "OAuth: Starting Spotify OAuth flow...";
    EvImport "open"; EvTurn; EvOpen (authUrl w); EvCreateServer;
    EvListen (listen_port ru) None Bound; EvTurn;
    EvLog ("Listening for Spotify redirect on " ++ redirectUri w); EvTurn],
   Uncaught (TypeError "Invalid URL")).
Proof.
  intros Ho Hru Hb Hreq Hh Hne Hd Hdec Hp Ht.
  apply (run_listener_uncaught parse_host w
           [EvImport "open"; EvTurn; EvOpen (authUrl w); EvCreateServer;
            EvListen (listen_port ru) None Bound; EvTurn;
            EvLog ("Listening for Spotify redirect on " ++ redirectUri w); EvTurn]).
  unfold request_code.
  rewrite (getSpotifyAuthCode_listening parse_host w (authUrl w) (redirectUri w) ru Ho Hru Hb).
  rewrite Hreq.
  assert (U : URL.parse parse_host
                (fullUrl {| headers_host := Some (h ++ ":" ++ ds); url := target |}) = None).
  { unfold fullUrl. simpl interpolate. simpl url.
    change (h ++ ":" ++ ds) with (h ++ String ":" ds).
    rewrite (append_assoc h (String ":" ds) target).
    change ("http://" ++ h ++ String ":" ds ++ target)
      with ("http" ++ "://" ++ h ++ String ":" ds ++ target).
    rewrite (parse_plain parse_host "http" h target (or_introl eq_refl) Hh Hne Ht
               (String ":" ds) ds (or_intror (conj eq_refl Hd))).
    rewrite (port_state_too_big "http" ds p Hdec Hp).
    now destruct (parse_host h). }
  rewrite (awaited_throws parse_host _ U). reflexivity.
Qed.

Lemma bad_host_header_crashes_witness :
  completion (initializeSpotifyClientWithOAuth letters_host w_bad_host) =
  Uncaught (TypeError "Invalid URL").
Proof.
  rewrite (bad_host_header_crashes letters_host w_bad_host
             {| URL.scheme := "http"; URL.host := "localhost";
                URL.port_number := Some 4000%N; URL.query := None |}
             "localhost" "99999" "/callback?code=ABC123" 99999%N);
    try reflexivity.
  discriminate.
Defined.

(* ================================================================== *)
(** * Escapes in the query *)

Section EscapeFacts.

Local Notation "'E'" := (URL.percent_encode URL.in_special_query_set).
Local Notation "'D'" := URL.percent_decode.
Local Notation "'F'" := (Str.map (fun c => if Ascii.eqb c "+" then " "%char else c)).

Lemma escape_facts (c : ascii) :
  Str.hex_value (Str.hex_digit (Str.code c / 16)) = Some (Str.code c / 16)%N /\
  Str.hex_value (Str.hex_digit (Str.code c mod 16)) = Some (Str.code c mod 16)%N /\
  ascii_of_N (16 * (Str.code c / 16) + Str.code c mod 16) = c /\
  Ascii.eqb (Str.hex_digit (Str.code c / 16)) "+" = false /\
  Ascii.eqb (Str.hex_digit (Str.code c mod 16)) "+" = false /\
  Ascii.eqb (Str.hex_digit (Str.code c / 16)) "&" = false /\
  Ascii.eqb (Str.hex_digit (Str.code c mod 16)) "&" = false.
Proof.
  destruct c as [[] [] [] [] [] [] [] []]; vm_compute; repeat split.
Qed.

Lemma in_set_facts (c : ascii) :
  URL.in_special_query_set c = true ->
  Ascii.eqb c "+" = false /\ Ascii.eqb c "%" = false /\ Ascii.eqb c "&" = false /\
  Ascii.eqb c "=" = false /\ Str.hex_value c = None.
Proof.
  destruct c as [[] [] [] [] [] [] [] []]; vm_compute; intros H;
    repeat split; discriminate.
Qed.

Lemma hex_facts (c : ascii) (a : N) :
  Str.hex_value c = Some a ->
  URL.in_special_query_set c = false /\ Ascii.eqb c "+" = false /\
  Ascii.eqb c "%" = false.
Proof.
  destruct c as [[] [] [] [] [] [] [] []]; vm_compute; intros H;
    repeat split; discriminate.
Qed.

Lemma space_not_hex : Str.hex_value " " = None /\ Str.hex_value "%" = None.
Proof. split; reflexivity. Qed.

Lemma decode_plain (c : ascii) (r : string) :
  Ascii.eqb c "%" = false -> D (String c r) = String c (D r).
Proof.
  intros H. destruct r as [|h [|l rest]]; simpl; now rewrite ?H.
Qed.

Lemma decode_escape (h l : ascii) (rest : string) (a b : N) :
  Str.hex_value h = Some a -> Str.hex_value l = Some b ->
  D (String "%" (String h (String l rest))) = String (ascii_of_N (16 * a + b)) (D rest).
Proof. intros Ha Hb. simpl. now rewrite Ha, Hb. Qed.

Lemma decode_percent (r : string) :
  two_hex r = false -> D (String "%" r) = String "%" (D r).
Proof.
  destruct r as [|h [|l rest]]; try reflexivity.
  unfold two_hex. simpl.
  destruct (Str.hex_value h), (Str.hex_value l); try discriminate; reflexivity.
Qed.

(** What stands after a [%]: an escape, before and after the encoding,
    or no escape, before and after. *)
Ltac settle_two_hex :=
  unfold two_hex; simpl;
  repeat first
    [ reflexivity
    | match goal with H : Str.hex_value _ = _ |- _ => rewrite H; simpl end
    | match goal with
      | |- context [if ?b then _ else _] =>
          match type of b with bool => destruct b; simpl end
      end ].

Lemma after_percent (r : string) :
  (exists h l rest a b,
      r = String h (String l rest) /\
      Str.hex_value h = Some a /\ Str.hex_value l = Some b /\
      F (E r) = String h (String l (F (E rest))) /\
      F r = String h (String l (F rest)))
  \/ (two_hex (F (E r)) = false /\ two_hex (F r) = false).
Proof.
  destruct r as [|h [|l rest]].
  - right. split; reflexivity.
  - right. split; [|reflexivity]. simpl.
    destruct (URL.in_special_query_set h); reflexivity.
  - destruct (Str.hex_value h) as [a|] eqn:Hh.
    + destruct (hex_facts h a Hh) as (Sh & Ph & _).
      destruct (Str.hex_value l) as [b|] eqn:Hl.
      * destruct (hex_facts l b Hl) as (Sl & Pl & _).
        left. exists h, l, rest, a, b. repeat split; try assumption.
        -- simpl. rewrite Sh. simpl. rewrite Sl. simpl. now rewrite Ph, Pl.
        -- simpl. now rewrite Ph, Pl.
      * right. split.
        -- simpl. rewrite Sh. simpl. rewrite Ph. settle_two_hex.
        -- simpl. rewrite Ph. settle_two_hex.
    + right. split; settle_two_hex.
Qed.

Lemma map_keep (c : ascii) (r : string) :
  Ascii.eqb c "+" = false -> F (String c r) = String c (F r).
Proof. intros H. simpl. now rewrite H. Qed.

Lemma map_plus (r : string) : F (String "+" r) = String " " (F r).
Proof. reflexivity. Qed.

Lemma encode_in (c : ascii) (r : string) :
  URL.in_special_query_set c = true ->
  E (String c r) =
  String "%" (String (Str.hex_digit (Str.code c / 16))
                (String (Str.hex_digit (Str.code c mod 16)) (E r))).
Proof. intros H. simpl. now rewrite H. Qed.

Lemma encode_out (c : ascii) (r : string) :
  URL.in_special_query_set c = false -> E (String c r) = String c (E r).
Proof. intros H. simpl. now rewrite H. Qed.

Lemma decode_encoded_upto (n : nat) (v : string) :
  String.length v <= n -> D (F (E v)) = D (F v).
Proof.
  revert v. induction n as [|n IH]; intros v Hn.
  - destruct v; [reflexivity | simpl in Hn; lia].
  - destruct v as [|c r]; [reflexivity|].
    simpl in Hn. assert (Hr : String.length r <= n) by lia.
    destruct (URL.in_special_query_set c) eqn:Sc.
    + destruct (in_set_facts c Sc) as (Pc & Qc & _).
      destruct (escape_facts c) as (X & Y & Z & PX & PY & _).
      rewrite (encode_in c r Sc).
      rewrite (map_keep "%" _ eq_refl), (map_keep _ _ PX), (map_keep _ _ PY).
      rewrite (map_keep c r Pc).
      rewrite (decode_escape _ _ _ _ _ X Y), Z.
      rewrite (decode_plain c _ Qc). now rewrite (IH r Hr).
    + rewrite (encode_out c r Sc).
      destruct (Ascii.eqb c "+") eqn:Pc.
      * apply Ascii.eqb_eq in Pc. subst c. rewrite !map_plus.
        rewrite !(decode_plain " " _ eq_refl). now rewrite (IH r Hr).
      * rewrite !(map_keep c _ Pc).
        destruct (Ascii.eqb c "%") eqn:Qc.
        -- apply Ascii.eqb_eq in Qc. subst c.
           destruct (after_percent r)
             as [(h & l & rest & a & b & -> & Hh & Hl & E1 & E2) | [T1 T2]].
           ++ rewrite E1, E2.
              rewrite !(decode_escape h l _ a b Hh Hl).
              simpl in Hr. rewrite (IH rest) by lia. reflexivity.
           ++ rewrite (decode_percent _ T1), (decode_percent _ T2).
              now rewrite (IH r Hr).
        -- rewrite !(decode_plain c _ Qc). now rewrite (IH r Hr).
Qed.

(** The escaping done by the URL parser is undone by [searchParams]:
    decoding the encoded text gives what decoding the text gives. *)
Lemma form_decode_encoded (v : string) :
  URL.form_decode (E v) = URL.form_decode v.
Proof.
  unfold URL.form_decode. apply (decode_encoded_upto (String.length v)). lia.
Qed.

Lemma encoded_no_ampersand (v : string) :
  Str.forallb (fun x => negb (Ascii.eqb x "&")) v = true ->
  Str.forallb (fun x => negb (Ascii.eqb x "&")) (E v) = true.
Proof.
  induction v as [|c r IH]; [reflexivity|].
  simpl. intros H. apply andb_prop in H. destruct H as [H1 H2].
  destruct (URL.in_special_query_set c); simpl.
  - destruct (escape_facts c) as (_ & _ & _ & _ & _ & AX & AY).
    rewrite AX, AY. simpl. now apply IH.
  - rewrite H1. simpl. now apply IH.
Qed.

End EscapeFacts.

(* ================================================================== *)
(** * The code of a request, as it is written and as it is delivered *)

Section CodeFacts.

Variable parse_host : string -> option string.

Lemma value_char_inv (c : ascii) :
  value_char c = true ->
  visible c = true /\ Ascii.eqb c "&" = false /\ Ascii.eqb c "#" = false.
Proof.
  unfold value_char. intros H.
  apply andb_prop in H. destruct H as [H H2].
  apply andb_prop in H. destruct H as [H0 H1].
  repeat split; [assumption | now apply negb_true_iff | now apply negb_true_iff].
Qed.

(** The first pair of a query that starts with [code=]. *)
Lemma urlencoded_parse_first_code (ev tail : string) :
  Str.forallb (fun x => negb (Ascii.eqb x "&")) ev = true ->
  match tail with EmptyString => true | String x _ => Ascii.eqb x "&" end = true ->
  URL.get "code" (URL.urlencoded_parse ("code=" ++ ev ++ tail)) = Some (URL.form_decode ev).
Proof.
  intros He Ht. unfold URL.urlencoded_parse.
  assert (A : Str.forallb (fun x => negb (Ascii.eqb x "&")) ("code=" ++ ev) = true)
    by exact He.
  assert (P : URL.parse_pair ("code=" ++ ev) = ("code", URL.form_decode ev)).
  { unfold URL.parse_pair. simpl Str.span. cbv iota beta. reflexivity. }
  destruct (split_on_plain "&" ("code=" ++ ev) A) as [S1 S2].
  assert (N : Str.is_empty ("code=" ++ ev) = false) by reflexivity.
  change ("code=" ++ ev ++ tail) with (("code=" ++ ev) ++ tail).
  remember ("code=" ++ ev) as k eqn:Ek. clear Ek A.
  destruct tail as [|x tail].
  - rewrite append_empty, S1. simpl. rewrite N. simpl. rewrite P. reflexivity.
  - apply Ascii.eqb_eq in Ht. subst x.
    rewrite S2. simpl. rewrite N. simpl. rewrite P. reflexivity.
Qed.

(** The query of a target [path?code=v...], whatever the value is made
    of. *)
Lemma query_state_first_code (path v more : string) :
  plain_path path = true ->
  Str.forallb value_char v = true ->
  after_code more = true ->
  exists tail,
    URL.query_state (path ++ "?code=" ++ v ++ more) =
      Some ("code=" ++ URL.percent_encode URL.in_special_query_set v ++ tail) /\
    match tail with EmptyString => true | String x _ => Ascii.eqb x "&" end = true.
Proof.
  intros Hp Hv Hm.
  unfold plain_path in Hp. apply andb_prop in Hp. destruct Hp as [_ Hp].
  assert (A : Str.forallb (fun x => negb (Ascii.eqb x "?" || Ascii.eqb x "#")) path = true).
  { apply (forallb_impl path_char); [|exact Hp].
    intros x Hx. unfold path_char in Hx.
    apply andb_prop in Hx. destruct Hx as [Hx H2].
    apply andb_prop in Hx. destruct Hx as [_ H1].
    apply negb_true_iff in H1. apply negb_true_iff in H2. now rewrite H1, H2. }
  assert (B : Str.forallb (fun x => negb (Ascii.eqb x "#")) ("code=" ++ v) = true).
  { simpl. apply (forallb_impl value_char); [|exact Hv].
    intros x Hx. destruct (value_char_inv x Hx) as (_ & _ & ->). reflexivity. }
  change (path ++ "?code=" ++ v ++ more) with (path ++ String "?" (("code=" ++ v) ++ more)).
  rewrite (query_state_after_path path (("code=" ++ v) ++ more) A).
  rewrite (span_app_cont (fun x => Ascii.eqb x "#") ("code=" ++ v) more B).
  destruct (Str.span (fun x => Ascii.eqb x "#") more) as [mq frag] eqn:Em.
  cbn [fst snd].
  rewrite percent_encode_app.
  exists (URL.percent_encode URL.in_special_query_set mq).
  split; [reflexivity|].
  unfold after_code in Hm. apply andb_prop in Hm. destruct Hm as [Hm _].
  destruct more as [|x more]; simpl in Em.
  - injection Em as <- <-. reflexivity.
  - destruct (Ascii.eqb x "#") eqn:Ex.
    + injection Em as <- <-. reflexivity.
    + rewrite orb_false_r in Hm.
      destruct (Str.span (fun x0 => Ascii.eqb x0 "#") more) as [a b].
      injection Em as <- <-. simpl.
      apply Ascii.eqb_eq in Hm. subst x. reflexivity.
Qed.

(** What [searchParams.get('code')] finds in a request written the
    plain way. *)
Lemma code_of_request (req : IncomingMessage)
    (h hst port_part buffer path v more : string) (pn : option N) :
  interpolate (headers_host req) = h ++ port_part ->
  url req = path ++ "?code=" ++ v ++ more ->
  Str.forallb host_char h = true ->
  h <> EmptyString ->
  parse_host h = Some hst ->
  (port_part = EmptyString /\ buffer = EmptyString \/
   port_part = String ":" buffer /\ Str.forallb Str.is_digit buffer = true) ->
  URL.port_state "http" buffer = Some pn ->
  plain_path path = true ->
  Str.forallb value_char v = true ->
  after_code more = true ->
  exists u,
    URL.parse parse_host (fullUrl req) = Some u /\
    URL.get "code" (URL.searchParams u) = Some (URL.form_decode v).
Proof.
  intros Hhost Hurl Hh Hne Hph Hp Hport Hpath Hv Hmore.
  set (rest := path ++ "?code=" ++ v ++ more).
  assert (R : after_authority rest = true).
  { unfold after_authority, rest.
    unfold plain_path in Hpath. apply andb_prop in Hpath. destruct Hpath as [P1 P2].
    unfold after_code in Hmore. apply andb_prop in Hmore. destruct Hmore as [_ M2].
    apply andb_true_intro. split.
    - destruct path as [|x path]; [discriminate|]. simpl.
      apply Ascii.eqb_eq in P1. subst x. reflexivity.
    - rewrite forallb_app. apply andb_true_intro. split.
      + apply (forallb_impl path_char); [|exact P2].
        intros x Hx. unfold path_char in Hx.
        apply andb_prop in Hx. destruct Hx as [Hx _].
        apply andb_prop in Hx. now destruct Hx.
      + simpl. rewrite forallb_app, M2, andb_true_r.
        apply (forallb_impl value_char); [|exact Hv].
        intros x Hx. now destruct (value_char_inv x Hx). }
  destruct (query_state_first_code path v more Hpath Hv Hmore) as (tail & Q & T).
  fold rest in Q.
  exists {| URL.scheme := "http"; URL.host := hst; URL.port_number := pn;
            URL.query := Some ("code=" ++ URL.percent_encode URL.in_special_query_set v
                               ++ tail) |}.
  split.
  - unfold fullUrl. rewrite Hhost, Hurl. fold rest.
    rewrite (append_assoc h port_part rest).
    change ("http://" ++ h ++ port_part ++ rest)
      with ("http" ++ "://" ++ h ++ port_part ++ rest).
    rewrite (parse_plain parse_host "http" h rest (or_introl eq_refl) Hh Hne R
               port_part buffer Hp).
    now rewrite Hph, Hport, Q.
  - unfold URL.searchParams. cbn [URL.query].
    rewrite urlencoded_parse_first_code; [|apply encoded_no_ampersand|exact T].
    + now rewrite form_decode_encoded.
    + apply (forallb_impl value_char); [|exact Hv].
      intros x Hx. destruct (value_char_inv x Hx) as (_ & -> & _). reflexivity.
Qed.

End CodeFacts.

(** X10.  For a request with a Host header [host] or [host:port] and a
    target [path?code=v] followed by nothing, more parameters or a
    fragment, where [v] decodes to ASCII text, the code is [v] with [+]
    read as a space and the percent escapes decoded: when that is empty the answer is 400 and a
    rejection, otherwise it is 200 and the promise is fulfilled with
    it.  Later parameters, a second [code] among them, change
    nothing. *)
Theorem callback_code_decoded
    (parse_host : string -> option string)
    (h hst port_part buffer path v more : string) (pn : option N) :
  Str.forallb host_char h = true ->
  h <> EmptyString ->
  parse_host h = Some hst ->
  (port_part = EmptyString /\ buffer = EmptyString \/
   port_part = String ":" buffer /\ Str.forallb Str.is_digit buffer = true) ->
  URL.port_state "http" buffer = Some pn ->
  plain_path path = true ->
  Str.forallb value_char v = true ->
  ascii_text (URL.form_decode v) = true ->
  after_code more = true ->
  requestListener parse_host
    {| headers_host := Some (h ++ port_part); url := path ++ "?code=" ++ v ++ more |} =
  if Str.is_empty (URL.form_decode v)
  then ([EvWriteHead 400 "text/html"; EvEnd failure_page; EvServerClose;
         EvReject (Error "No code found in callback")], Returned tt)
  else ([EvWriteHead 200 "text/html"; EvEnd success_page; EvServerClose;
         EvResolve (URL.form_decode v)], Returned tt).
Proof.
  intros Hh Hne Hph Hp Hport Hpath Hv _ Hmore.
  destruct (code_of_request parse_host
              {| headers_host := Some (h ++ port_part);
                 url := path ++ "?code=" ++ v ++ more |}
              h hst port_part buffer path v more pn eq_refl eq_refl
              Hh Hne Hph Hp Hport Hpath Hv Hmore) as (u & U & G).
  destruct (URL.form_decode v) as [|a c] eqn:Ev.
  - apply (requestListener_no_code parse_host _ u U). now rewrite G.
  - apply (requestListener_code parse_host _ u (String a c) U G). discriminate.
Qed.

Lemma callback_code_decoded_witness :
  requestListener letters_host (get_callback "/callback?code=a%2Fb+c&code=other#top") =
  ([EvWriteHead 200 "text/html"; EvEnd success_page; EvServerClose; EvResolve "a/b c"],
   Returned tt).
Proof.
  apply (callback_code_decoded letters_host "localhost" "localhost" ":4000" "4000"
           "/callback" "a%2Fb+c" "&code=other#top" (Some 4000%N));
    try reflexivity; [discriminate | right; split; reflexivity].
Defined.

(** C3, as amended.  When [new URL] accepts the rebuilt address and the
    first [code] parameter of its query is a non-empty ASCII text, the
    request is answered with status 200 and the success page, the
    server is closed and the promise is fulfilled with that code.  Read
    on the request itself: with a Host header [host] or [host:port] and
    a target [path?code=v] followed by nothing, more parameters or a
    fragment, that code is [v] with [+] read as a space and the percent
    escapes decoded. *)
Theorem first_code_resolves (parse_host : string -> option string) :
  (forall (req : IncomingMessage) (u : URL.t) (c : string),
     URL.parse parse_host (fullUrl req) = Some u ->
     URL.get "code" (URL.searchParams u) = Some c ->
     c <> EmptyString ->
     ascii_text c = true ->
     requestListener parse_host req =
       ([EvWriteHead 200 "text/html"; EvEnd success_page; EvServerClose; EvResolve c],
        Returned tt) /\
     promise (arrive parse_host listening (OnNewConnection req)) = Fulfilled c /\
     accepting (arrive parse_host listening (OnNewConnection req)) = false /\
     completion (awaited (arrive parse_host listening (OnNewConnection req))) = Returned c) /\
  (forall (h hst port_part buffer path v more : string) (pn : option N),
     Str.forallb host_char h = true ->
     h <> EmptyString ->
     parse_host h = Some hst ->
     (port_part = EmptyString /\ buffer = EmptyString \/
      port_part = String ":" buffer /\ Str.forallb Str.is_digit buffer = true) ->
     URL.port_state "http" buffer = Some pn ->
     plain_path path = true ->
     Str.forallb value_char v = true ->
     URL.form_decode v <> EmptyString ->
     ascii_text (URL.form_decode v) = true ->
     after_code more = true ->
     let req := {| headers_host := Some (h ++ port_part);
                   url := path ++ "?code=" ++ v ++ more |} in
     requestListener parse_host req =
       ([EvWriteHead 200 "text/html"; EvEnd success_page; EvServerClose;
         EvResolve (URL.form_decode v)], Returned tt) /\
     completion (awaited (arrive parse_host listening (OnNewConnection req)))
     = Returned (URL.form_decode v)).
Proof.
  assert (A : forall req u c,
             URL.parse parse_host (fullUrl req) = Some u ->
             URL.get "code" (URL.searchParams u) = Some c ->
             c <> EmptyString ->
             requestListener parse_host req =
               ([EvWriteHead 200 "text/html"; EvEnd success_page; EvServerClose;
                 EvResolve c], Returned tt) /\
             promise (arrive parse_host listening (OnNewConnection req)) = Fulfilled c /\
             accepting (arrive parse_host listening (OnNewConnection req)) = false /\
             completion (awaited (arrive parse_host listening (OnNewConnection req)))
             = Returned c).
  { intros req u c Hu Hc Hne.
    pose proof (requestListener_code parse_host req u c Hu Hc Hne) as R.
    split; [exact R|].
    unfold arrive, dispatch. simpl. rewrite R. simpl. auto. }
  split.
  - intros req u c Hu Hc Hne _. now apply (A req u c).
  - intros h hst port_part buffer path v more pn Hh Hne Hph Hp Hport Hpath Hv Hc _ Hmore req.
    destruct (code_of_request parse_host req
                h hst port_part buffer path v more pn eq_refl eq_refl
                Hh Hne Hph Hp Hport Hpath Hv Hmore) as (u & U & G).
    destruct (A req u (URL.form_decode v) U G Hc) as (R & _ & _ & W).
    now split.
Qed.

Lemma first_code_resolves_witness :
  requestListener letters_host (get_callback "/callback?code=AQ%2Dx+1&state=xyz") =
    ([EvWriteHead 200 "text/html"; EvEnd success_page; EvServerClose; EvResolve "AQ-x 1"],
     Returned tt) /\
  completion (awaited (arrive letters_host listening
                         (OnNewConnection (get_callback "/callback?code=AQ%2Dx+1&state=xyz"))))
  = Returned "AQ-x 1".
Proof.
  apply (proj2 (first_code_resolves letters_host)
           "localhost" "localhost" ":4000" "4000" "/callback" "AQ%2Dx+1" "&state=xyz"
           (Some 4000%N));
    try reflexivity; [discriminate | right; split; reflexivity | discriminate].
Defined.

(* ================================================================== *)
(** * The walkthrough *)

Section WalkthroughFacts.

Lemma and_then_returned {A B : Type} (m : Run A) (k : A -> Run B) (t : list Step) (a : A) :
  m = (t, Returned a) ->
  and_then m k = ((t ++ steps (k a))%list, ending (k a)).
Proof. intros ->. unfold and_then, steps, ending. now destruct (k a). Qed.

Lemma uint_digits (d : Decimal.uint) :
  Str.forallb Str.is_digit (NilEmpty.string_of_uint d) = true.
Proof. induction d; simpl; auto. Qed.

Lemma number_text_digits (n : N) :
  Str.forallb Str.is_digit (number_text n) = true /\
  exists a r, number_text n = String a r /\ Str.is_digit a = true.
Proof.
  split; [apply uint_digits|].
  pose proof (uint_digits (N.to_uint n)) as H.
  unfold number_text.
  destruct (NilEmpty.string_of_uint (N.to_uint n)) as [|a r] eqn:E.
  - exfalso. destruct n as [|p]; [discriminate|].
    simpl in E. pose proof (DecimalPos.Unsigned.to_uint_nonnil p) as Hp.
    destruct (Pos.to_uint p); [congruence | | | | | | | | | |]; discriminate.
  - exists a, r. split; [reflexivity|].
    simpl in H. apply andb_prop in H. now destruct H.
Qed.

Lemma digit_first (a : ascii) :
  Str.is_digit a = true ->
  ws1 a = false /\ (forall b, ws2 a b = false) /\ (forall b c, ws3 a b c = false) /\
  Ascii.eqb a "-" = false /\ Ascii.eqb a "+" = false /\
  Ascii.eqb a (ascii_of_N 10) = false.
Proof.
  destruct a as [[] [] [] [] [] [] [] []]; vm_compute; intros H;
    try discriminate; repeat split.
Qed.

Lemma trim_start_digit (a : ascii) (r : string) :
  Str.is_digit a = true -> trim_start (String a r) = String a r.
Proof.
  intros H. destruct (digit_first a H) as (W1 & W2 & W3 & _).
  destruct r as [|b [|c r3]]; simpl; rewrite W1; try reflexivity;
    rewrite W2; try reflexivity; now rewrite W3.
Qed.

Lemma span_digits (s : string) :
  Str.forallb Str.is_digit s = true ->
  Str.span (fun c => negb (Str.is_digit c)) s = (s, EmptyString).
Proof.
  intros H. rewrite <- (append_empty s) at 1.
  apply span_app; [|reflexivity].
  apply (forallb_impl Str.is_digit); [|exact H].
  intros c Hc. now rewrite Hc.
Qed.

(** [parseInt] reads back the number that a template literal wrote. *)
Lemma parseInt10_number_text (n : N) :
  parseInt10 (number_text n) = Int (Z.of_N n).
Proof.
  destruct (number_text_digits n) as (Hd & a & r & E & Ha).
  unfold parseInt10. rewrite E, (trim_start_digit a r Ha).
  destruct (digit_first a Ha) as (_ & _ & _ & Hm & Hp & _).
  rewrite Hm, Hp. rewrite <- E, (span_digits _ Hd), E.
  simpl Str.is_empty. cbv iota. rewrite <- E.
  unfold number_text. now rewrite decimal_of_port.
Qed.

Lemma forEach_log_returns (artists : list SpotifyApi.ArtistObject) (i : nat) :
  ending (forEach_log i artists) = Returned tt.
Proof.
  revert i. induction artists as [|a l IH]; intros i; [reflexivity|].
  simpl. specialize (IH (i + 1)).
  destruct (forEach_log (i + 1) l) as [t r]. simpl in IH. now subst r.
Qed.

Lemma forEach_log_steps (artists : list SpotifyApi.ArtistObject) (i : nat) :
  steps (forEach_log i artists) =
  List.map (fun p => Flow (EvLog (artist_line (fst p) (snd p))))
    (List.combine (List.seq i (List.length artists)) artists).
Proof.
  revert i. induction artists as [|a l IH]; intros i; [reflexivity|].
  simpl. specialize (IH (i + 1)).
  destruct (forEach_log (i + 1) l) as [t r]. simpl in *.
  rewrite IH. now replace (i + 1) with (S i) by lia.
Qed.

(** The lines of the list: the artist at index [idx] stands on the line
    that starts with [idx + 1]. *)
Lemma forEach_log_nth (artists : list SpotifyApi.ArtistObject) (idx : nat)
    (a : SpotifyApi.ArtistObject) :
  nth_error artists idx = Some a ->
  nth_error (steps (forEach_log 0 artists)) idx = Some (Flow (EvLog (artist_line idx a))).
Proof.
  intros H. rewrite forEach_log_steps.
  rewrite nth_error_map.
  assert (C : forall l s i,
             nth_error l i = Some a ->
             nth_error (List.combine (List.seq s (List.length l)) l) i = Some (s + i, a)).
  { induction l as [|x l IH]; intros s i Hi.
    - destruct i; discriminate.
    - destruct i as [|i]; simpl in *.
      + injection Hi as ->. now rewrite Nat.add_0_r.
      + rewrite (IH (S s) i Hi). f_equal. f_equal. lia. }
  now rewrite (C artists 0 idx H).
Qed.

(** Up to the question: what [pick_and_print] does with several
    artists. *)
Lemma pick_and_print_many (artists : list SpotifyApi.ArtistObject) (typed : option string) :
  2 <= List.length artists ->
  pick_and_print (Some artists) typed =
  match typed with
  | None => (choosing artists, Pending)
  | Some choice =>
      let idx := minus_one (parseInt10 choice) in
      if lt_zero idx || ge_length idx (List.length artists)
      then ((choosing artists ++ [Flow (EvLog "Invalid selection.")])%list, Returned tt)
      else
        match element artists idx with
        | None =>
            (choosing artists,
             Thrown (TypeError "Cannot read properties of undefined (reading 'name')"))
        | Some a =>
            ((choosing artists ++
              Flow (EvLog ("Step 3: Selected artist: " ++ interpolate (SpotifyApi.name a)))
              :: steps (print_details a))%list,
             ending (print_details a))
        end
  end.
Proof.
  intros L. unfold pick_and_print, choosing, found_line.
  destruct (Nat.eqb_spec (List.length artists) 0) as [E0|_]; [lia|].
  destruct (Nat.eqb_spec (List.length artists) 1) as [E1|_]; [lia|].
  pose proof (forEach_log_returns artists 0) as R.
  destruct (forEach_log 0 artists) as [t r]. simpl in R. subst r.
  destruct typed as [choice|]; simpl.
  - destruct (lt_zero (minus_one (parseInt10 choice))
              || ge_length (minus_one (parseInt10 choice)) (List.length artists)); simpl.
    + now rewrite <- !app_assoc.
    + destruct (element artists (minus_one (parseInt10 choice))) as [a|]; simpl.
      * destruct (print_details a) as [t' r']. simpl.
        now rewrite <- !app_assoc.
      * reflexivity.
  - reflexivity.
Qed.

End WalkthroughFacts.

Section SelectionFacts.

Variable artists : list SpotifyApi.ArtistObject.
Hypothesis several : 2 <= List.length artists.

Lemma pick_at_index (choice : string) (idx : nat) (a : SpotifyApi.ArtistObject) :
  parseInt10 choice = Int (Z.of_nat idx + 1) ->
  nth_error artists idx = Some a ->
  pick_and_print (Some artists) (Some choice) =
  ((choosing artists ++
    Flow (EvLog ("Step 3: Selected artist: " ++ interpolate (SpotifyApi.name a)))
    :: steps (print_details a))%list,
   ending (print_details a)).
Proof.
  intros P H. rewrite (pick_and_print_many artists (Some choice) several).
  cbv zeta. rewrite P. simpl minus_one.
  replace (Z.of_nat idx + 1 - 1)%Z with (Z.of_nat idx) by lia.
  assert (L : idx < List.length artists) by (apply nth_error_Some; congruence).
  unfold lt_zero, ge_length, element.
  destruct (Z.ltb_spec (Z.of_nat idx) 0); [lia|].
  destruct (Z.leb_spec (Z.of_nat (List.length artists)) (Z.of_nat idx)); [lia|].
  simpl orb. cbv iota. now rewrite Nat2Z.id, H.
Qed.

End SelectionFacts.

(** X12.  With several artists found, a choice that [parseInt] reads
    as a number from 1 to the number of artists selects the artist at
    that place of the list, and [main] goes on with its details. *)
Theorem choice_in_range_selects
    (artists : list SpotifyApi.ArtistObject) (choice : string) (k : Z)
    (a : SpotifyApi.ArtistObject) :
  2 <= List.length artists ->
  parseInt10 choice = Int k ->
  (1 <= k <= Z.of_nat (List.length artists))%Z ->
  nth_error artists (Z.to_nat (k - 1)) = Some a ->
  pick_and_print (Some artists) (Some choice) =
  ((choosing artists ++
    Flow (EvLog ("Step 3: Selected artist: " ++ interpolate (SpotifyApi.name a)))
    :: steps (print_details a))%list,
   ending (print_details a)).
Proof.
  intros L P K H.
  apply (pick_at_index artists L choice (Z.to_nat (k - 1)) a); [|exact H].
  rewrite P. f_equal. lia.
Qed.

Lemma choice_in_range_selects_witness :
  ending (pick_and_print (Some two_artists) (Some " 1st")) = Returned tt /\
  In (Flow (EvLog "Step 3: Selected artist: Queen"))
     (steps (pick_and_print (Some two_artists) (Some " 1st"))).
Proof.
  rewrite (choice_in_range_selects two_artists " 1st" 1
             (an_artist "Queen" (Some "1dfeR4HaWDbWqFHLkxsg1d")));
    [ split; [reflexivity | simpl; tauto]
    | simpl; lia | reflexivity | simpl; lia | reflexivity ].
Defined.

(** X13.  Typing the number printed in front of an artist selects that
    artist: the line of the artist at index [idx] starts with
    [idx + 1], and that number, typed back, makes [main] select
    it. *)
Theorem typed_label_selects
    (artists : list SpotifyApi.ArtistObject) (idx : nat) (a : SpotifyApi.ArtistObject) :
  2 <= List.length artists ->
  nth_error artists idx = Some a ->
  nth_error (steps (forEach_log 0 artists)) idx =
    Some (Flow (EvLog (number_text (N.of_nat (idx + 1)) ++ ". "
                       ++ interpolate (SpotifyApi.name a)
                       ++ " (Genres: " ++ genres_text a ++ ", Popularity: "
                       ++ interpolate_number (SpotifyApi.popularity a) ++ ")"))) /\
  pick_and_print (Some artists) (Some (number_text (N.of_nat (idx + 1)))) =
  ((choosing artists ++
    Flow (EvLog ("Step 3: Selected artist: " ++ interpolate (SpotifyApi.name a)))
    :: steps (print_details a))%list,
   ending (print_details a)).
Proof.
  intros L H. split.
  - exact (forEach_log_nth artists idx a H).
  - apply (pick_at_index artists L _ idx a); [|exact H].
    rewrite parseInt10_number_text. f_equal. lia.
Qed.

Lemma typed_label_selects_witness :
  nth_error (steps (forEach_log 0 two_artists)) 1 =
    Some (Flow (EvLog "2. Queen Latifah (Genres: glam rock, rock, Popularity: 82)")) /\
  pick_and_print (Some two_artists) (Some "2") =
  ((choosing two_artists ++
    [Flow (EvLog "Step 3: Selected artist: Queen Latifah");
     Flow (EvLog "Selected artist has no ID.")])%list,
   Returned tt).
Proof.
  apply (typed_label_selects two_artists 1 (an_artist "Queen Latifah" None));
    [simpl; lia | reflexivity].
Defined.

(** X14.  With several artists found, a choice that [parseInt] reads
    as a number below 1 or above the number of artists is answered
    with "Invalid selection." and [main] returns: no artist is read
    and no details are printed. *)
Theorem choice_out_of_range_is_invalid
    (artists : list SpotifyApi.ArtistObject) (choice : string) (k : Z) :
  2 <= List.length artists ->
  parseInt10 choice = Int k ->
  (k < 1 \/ Z.of_nat (List.length artists) < k)%Z ->
  pick_and_print (Some artists) (Some choice) =
  ((choosing artists ++ [Flow (EvLog "Invalid selection.")])%list, Returned tt).
Proof.
  intros L P K. rewrite (pick_and_print_many artists (Some choice) L).
  cbv zeta. rewrite P. simpl minus_one. unfold lt_zero, ge_length.
  destruct (Z.ltb_spec (k - 1) 0); [reflexivity|].
  destruct (Z.leb_spec (Z.of_nat (List.length artists)) (k - 1)); [reflexivity | lia].
Qed.

Lemma choice_out_of_range_is_invalid_witness :
  pick_and_print (Some two_artists) (Some "-0") =
  ((choosing two_artists ++ [Flow (EvLog "Invalid selection.")])%list, Returned tt).
Proof.
  apply (choice_out_of_range_is_invalid two_artists "-0" 0);
    [simpl; lia | reflexivity | simpl; lia].
Defined.

(** X15.  With several artists found, a choice in which [parseInt]
    finds no number (an empty line, a word) passes the range check,
    since every comparison with NaN is false; [artists[NaN]] is
    undefined and reading its name makes [main] throw a TypeError right
    after the question. *)
Theorem choice_not_a_number_throws
    (artists : list SpotifyApi.ArtistObject) (choice : string) :
  2 <= List.length artists ->
  parseInt10 choice = IntNaN ->
  pick_and_print (Some artists) (Some choice) =
  (choosing artists,
   Thrown (TypeError "Cannot read properties of undefined (reading 'name')")).
Proof.
  intros L P. rewrite (pick_and_print_many artists (Some choice) L).
  cbv zeta. now rewrite P.
Qed.

Lemma choice_not_a_number_throws_witness :
  pick_and_print (Some two_artists) (Some "") =
  (choosing two_artists,
   Thrown (TypeError "Cannot read properties of undefined (reading 'name')")).
Proof.
  apply (choice_not_a_number_throws two_artists ""); [simpl; lia | reflexivity].
Defined.

(* ================================================================== *)
(** * [main] as a whole *)

Section MainFacts.

Variable parse_host : string -> option string.

Lemma main_not_authenticated (w : World) (x : Outside) :
  (forall c, completion (initializeSpotifyClientWithOAuth parse_host w) <> Returned c) ->
  steps (main parse_host w x) =
  List.map Flow (trace (initializeSpotifyClientWithOAuth parse_host w)).
Proof.
  unfold main, lift.
  destruct (initializeSpotifyClientWithOAuth parse_host w) as [t [c|e|e|]];
    simpl; intros H; try reflexivity.
  exfalso. now apply (H c).
Qed.

Lemma main_authenticated (w : World) (x : Outside) (c : Client) :
  completion (initializeSpotifyClientWithOAuth parse_host w) = Returned c ->
  main parse_host w x =
  ((List.map Flow (trace (initializeSpotifyClientWithOAuth parse_host w))
    ++ steps (walkthrough x c))%list,
   ending (walkthrough x c)).
Proof.
  unfold main, lift.
  destruct (initializeSpotifyClientWithOAuth parse_host w) as [t r]; simpl.
  intros ->. simpl. now destruct (walkthrough x c).
Qed.

Lemma in_map_flow (st : Step) (t : list Event) :
  In st (List.map Flow t) -> is_flow st = true.
Proof.
  intros H. apply in_map_iff in H. destruct H as (e & <- & _). reflexivity.
Qed.

Lemma print_details_flow (a : SpotifyApi.ArtistObject) (st : Step) :
  In st (steps (print_details a)) -> is_flow st = true.
Proof.
  unfold print_details.
  destruct (truthy_string (SpotifyApi.id a)); simpl.
  - destruct (SpotifyApi.images a) as [[|image l]|]; simpl; intros H;
      repeat (destruct H as [H|H]; [subst st; reflexivity|]); contradiction.
  - intros [<-|[]]. reflexivity.
Qed.

(** The heading of the details is printed for an artist with an id
    only. *)
Lemma print_details_heading (a : SpotifyApi.ArtistObject) :
  In details_heading (steps (print_details a)) ->
  truthy_string (SpotifyApi.id a) = true.
Proof.
  unfold print_details.
  destruct (truthy_string (SpotifyApi.id a)); [reflexivity|].
  simpl. intros [H|[]]. discriminate.
Qed.

Lemma heading_not_in_choosing (artists : list SpotifyApi.ArtistObject) :
  ~ In details_heading (choosing artists).
Proof.
  unfold choosing, details_heading, found_line. intros [H|[H|H]].
  - simpl in H. discriminate.
  - discriminate.
  - apply in_app_or in H. destruct H as [H|[H|[]]]; [|discriminate].
    rewrite forEach_log_steps in H. apply in_map_iff in H.
    destruct H as ((i & a) & E & _). cbn [fst snd] in E.
    unfold artist_line in E.
    destruct (number_text_digits (N.of_nat (i + 1))) as (_ & d & r & Eq & Hd).
    destruct (digit_first d Hd) as (_ & _ & _ & _ & _ & Hn).
    rewrite Eq in E. simpl in E. injection E as E _.
    rewrite E in Hn. discriminate.
Qed.

(** Where [pick_and_print] asks a question, there are several
    artists. *)
Lemma pick_and_print_question (items : option (list SpotifyApi.ArtistObject))
    (typed : option string) (q : string) :
  In (Question q) (steps (pick_and_print items typed)) ->
  exists l, items = Some l /\ 2 <= List.length l.
Proof.
  destruct items as [[|a [|b l]]|].
  - simpl. intros [H|[H|[]]]; discriminate.
  - unfold pick_and_print. simpl.
    destruct (print_details a) as [t r] eqn:E. simpl.
    intros [H|[H|H]]; try discriminate.
    assert (F : is_flow (Question q) = true).
    { apply (print_details_flow a). now rewrite E. }
    discriminate.
  - intros _. exists (a :: b :: l). split; [reflexivity | simpl; lia].
  - simpl. intros [H|[H|[]]]; discriminate.
Qed.

(** Every step of [main] that is not a step of the authentication
    comes after the authentication has returned a client. *)
Lemma steps_need_client (w : World) (x : Outside) (st : Step) :
  In st (steps (main parse_host w x)) ->
  is_flow st = false ->
  exists c, completion (initializeSpotifyClientWithOAuth parse_host w) = Returned c.
Proof.
  intros H F.
  destruct (completion (initializeSpotifyClientWithOAuth parse_host w)) as [c|e|e|] eqn:C;
    [now exists c | | |];
    exfalso;
    (rewrite main_not_authenticated in H; [|intros c; congruence]);
    apply in_map_flow in H; congruence.
Qed.

End MainFacts.

(** X16.  [main] calls the API and asks its questions only with a
    client in hand: when the authentication throws, crashes or waits,
    [main] does nothing beyond what the authentication did. *)
Theorem main_needs_authentication
    (parse_host : string -> option string) (w : World) (x : Outside) (st : Step) :
  In st (steps (main parse_host w x)) ->
  is_flow st = false ->
  exists c, completion (initializeSpotifyClientWithOAuth parse_host w) = Returned c.
Proof.
  intros H F.
  destruct (completion (initializeSpotifyClientWithOAuth parse_host w)) as [c|e|e|] eqn:C;
    [now exists c | | |];
    exfalso;
    (rewrite main_not_authenticated in H; [|intros c; congruence]);
    apply in_map_flow in H; congruence.
Qed.

Lemma main_needs_authentication_witness :
  exists c, completion (initializeSpotifyClientWithOAuth letters_host w_ok) = Returned c.
Proof.
  apply (main_needs_authentication letters_host w_ok
           (outside (Some "smedjan") two_artists (Some "1")) GetCurrentUsersProfile);
    [|reflexivity].
  simpl. tauto.
Defined.

(** X17.  When the profile carries no user id (undefined or empty),
    [main] logs the id it got and throws "Could not retrieve user
    ID.": it asks no question and makes no search. *)
Theorem missing_user_id_throws
    (parse_host : string -> option string) (w : World) (x : Outside)
    (c : Client) (v : option string) :
  completion (initializeSpotifyClientWithOAuth parse_host w) = Returned c ->
  profile_id x c = ApiReturns v ->
  truthy_string v = false ->
  main parse_host w x =
  ((List.map Flow (trace (initializeSpotifyClientWithOAuth parse_host w))
    ++ [GetCurrentUsersProfile; Flow (EvLog ("OAuth: User ID is " ++ interpolate v))])%list,
   Thrown (Error "Could not retrieve user ID.")).
Proof.
  intros C P T. rewrite (main_authenticated parse_host w x c C).
  unfold walkthrough, getCurrentUsersProfile. rewrite P. simpl. now rewrite T.
Qed.

Lemma missing_user_id_throws_witness :
  ending (main letters_host w_ok (outside None two_artists (Some "1"))) =
  Thrown (Error "Could not retrieve user ID.").
Proof.
  rewrite (missing_user_id_throws letters_host w_ok (outside None two_artists (Some "1"))
             (session w_ok (JsObject a_token)) None); reflexivity.
Defined.

(** X18.  [main] asks for a selection only when the search for the
    typed name returned at least two artists. *)
Theorem selection_asked_among_several
    (parse_host : string -> option string) (w : World) (x : Outside) :
  In (Question "Select artist number: ") (steps (main parse_host w x)) ->
  exists c artistName l,
    completion (initializeSpotifyClientWithOAuth parse_host w) = Returned c /\
    typed_artist x = Some artistName /\
    search_items x c ("artist:" ++ artistName) = ApiReturns (Some l) /\
    2 <= List.length l.
Proof.
  intros H.
  destruct (steps_need_client parse_host w x _ H eq_refl) as (c & C).
  rewrite (main_authenticated parse_host w x c C) in H.
  apply in_app_or in H. destruct H as [H|H].
  { apply in_map_flow in H. discriminate. }
  unfold walkthrough, getCurrentUsersProfile, search, prompt in H.
  destruct (profile_id x c) as [v|e]; simpl in H.
  2:{ destruct H as [H|[]]. discriminate. }
  destruct (truthy_string v); simpl in H.
  2:{ destruct H as [H|[H|[]]]; discriminate. }
  destruct (typed_artist x) as [artistName|]; simpl in H.
  2:{ destruct H as [H|[H|[H|[H|[]]]]]; discriminate. }
  match type of H with
  | context [search_items x c ?q] =>
      destruct (search_items x c q) as [items|e] eqn:S; simpl in H
  end.
  2:{ repeat (destruct H as [H|H]; [discriminate|]). contradiction. }
  destruct (pick_and_print items (typed_choice x)) as [t r] eqn:E. simpl in H.
  repeat (destruct H as [H|H]; [discriminate|]).
  destruct (pick_and_print_question items (typed_choice x) "Select artist number: ")
    as (l & -> & L).
  { now rewrite E. }
  exists c, artistName, l. repeat split; [exact C | exact S | exact L].
Qed.

Lemma selection_asked_among_several_witness :
  exists c artistName l,
    completion (initializeSpotifyClientWithOAuth letters_host w_ok) = Returned c /\
    typed_artist (outside (Some "smedjan") two_artists (Some "1")) = Some artistName /\
    search_items (outside (Some "smedjan") two_artists (Some "1")) c
      ("artist:" ++ artistName) = ApiReturns (Some l) /\
    2 <= List.length l.
Proof.
  apply (selection_asked_among_several letters_host w_ok
           (outside (Some "smedjan") two_artists (Some "1"))).
  vm_compute. tauto.
Defined.

Lemma element_in {A : Type} (l : list A) (x : JsInt) (a : A) :
  element l x = Some a -> In a l.
Proof.
  destruct x as [|z]; [discriminate|]. simpl.
  destruct (z <? 0)%Z; [discriminate|]. apply nth_error_In.
Qed.

Lemma print_details_returns (a : SpotifyApi.ArtistObject) :
  ending (print_details a) = Returned tt.
Proof.
  unfold print_details.
  destruct (truthy_string (SpotifyApi.id a)); [|reflexivity].
  destruct (SpotifyApi.images a) as [[|image l]|]; reflexivity.
Qed.

Lemma pick_and_print_one (a : SpotifyApi.ArtistObject) (typed : option string) :
  pick_and_print (Some [a]) typed =
  (([Flow (EvLog "Step 2: Found 1 artist(s).");
     Flow (EvLog ("Step 3: Only one artist found: " ++ interpolate (SpotifyApi.name a)))]
    ++ steps (print_details a))%list,
   ending (print_details a)).
Proof.
  unfold pick_and_print. simpl.
  destruct (print_details a) as [t r]. reflexivity.
Qed.

(** X19.  The details are printed only for the artist that was picked
    among those the search returned, and only when that artist has an
    id: the only artist found, or the one at the place typed, for a
    number that was not refused.  The details are then the last thing
    printed, their heading comes once, and nothing has failed. *)
Theorem details_only_for_found_artist
    (items : option (list SpotifyApi.ArtistObject)) (typed : option string) :
  In details_heading (steps (pick_and_print items typed)) ->
  exists l a before,
    items = Some l /\ In a l /\ truthy_string (SpotifyApi.id a) = true /\
    (l = [a] \/
     exists choice,
       typed = Some choice /\
       lt_zero (minus_one (parseInt10 choice))
       || ge_length (minus_one (parseInt10 choice)) (List.length l) = false /\
       element l (minus_one (parseInt10 choice)) = Some a) /\
    steps (pick_and_print items typed) = (before ++ steps (print_details a))%list /\
    ~ In details_heading before /\
    ending (pick_and_print items typed) = Returned tt.
Proof.
  destruct items as [artists|]; [|simpl; intros [H|[H|[]]]; discriminate].
  destruct (le_lt_dec 2 (List.length artists)) as [L|L].
  - rewrite (pick_and_print_many artists typed L).
    pose proof (heading_not_in_choosing artists) as N.
    destruct typed as [choice|]; [|intros H; now apply N in H].
    cbv zeta.
    destruct (lt_zero (minus_one (parseInt10 choice))
              || ge_length (minus_one (parseInt10 choice)) (List.length artists)) eqn:R.
    + unfold steps. cbn [fst]. intros H.
      apply in_app_or in H. destruct H as [H|[H|[]]]; [now apply N in H | discriminate].
    + destruct (element artists (minus_one (parseInt10 choice))) as [a'|] eqn:El;
        [|intros H; now apply N in H].
      unfold steps at 1. cbn [fst]. intros H.
      apply in_app_or in H. destruct H as [H|[H|H]];
        [now apply N in H | discriminate |].
      exists artists, a',
        (choosing artists ++
         [Flow (EvLog ("Step 3: Selected artist: " ++ interpolate (SpotifyApi.name a')))])%list.
      split; [reflexivity|]. split; [exact (element_in _ _ _ El)|].
      split; [now apply print_details_heading|].
      split; [right; exists choice; repeat split; assumption|].
      split; [unfold steps at 1; cbn [fst]; now rewrite <- app_assoc|].
      split; [|unfold ending at 1; cbn [snd]; apply print_details_returns].
      intros B. apply in_app_or in B. destruct B as [B|[B|[]]];
        [now apply N in B | discriminate].
  - destruct artists as [|a [|b l]]; [| |simpl in L; lia].
    + simpl. intros [H|[H|[]]]; discriminate.
    + rewrite pick_and_print_one. unfold steps at 1. cbn [fst].
      intros H. apply in_app_or in H. destruct H as [[H|[H|[]]]|H]; try discriminate.
      exists [a], a,
        [Flow (EvLog "Step 2: Found 1 artist(s).");
         Flow (EvLog ("Step 3: Only one artist found: "
                      ++ interpolate (SpotifyApi.name a)))].
      split; [reflexivity|]. split; [now left|].
      split; [now apply print_details_heading|].
      split; [now left|].
      split; [reflexivity|].
      split; [|unfold ending at 1; cbn [snd]; apply print_details_returns].
      intros [B|[B|[]]]; discriminate.
Qed.

Lemma details_only_for_found_artist_witness :
  exists l a before,
    Some two_artists = Some l /\ In a l /\ truthy_string (SpotifyApi.id a) = true /\
    (l = [a] \/
     exists choice,
       Some "1" = Some choice /\
       lt_zero (minus_one (parseInt10 choice))
       || ge_length (minus_one (parseInt10 choice)) (List.length l) = false /\
       element l (minus_one (parseInt10 choice)) = Some a) /\
    steps (pick_and_print (Some two_artists) (Some "1"))
    = (before ++ steps (print_details a))%list /\
    ~ In details_heading before /\
    ending (pick_and_print (Some two_artists) (Some "1")) = Returned tt.
Proof.
  apply (details_only_for_found_artist (Some two_artists) (Some "1")).
  vm_compute. tauto.
Defined.

(** X20.  When the search throws, [main] throws the same error: the
    user has been asked for the name, and is not asked for a
    selection. *)
Theorem search_error_propagates
    (parse_host : string -> option string) (w : World) (x : Outside)
    (c : Client) (v : option string) (artistName : string) (e : JsError) :
  completion (initializeSpotifyClientWithOAuth parse_host w) = Returned c ->
  profile_id x c = ApiReturns v ->
  truthy_string v = true ->
  typed_artist x = Some artistName ->
  search_items x c ("artist:" ++ artistName) = ApiThrows e ->
  main parse_host w x =
  ((List.map Flow (trace (initializeSpotifyClientWithOAuth parse_host w))
    ++ [GetCurrentUsersProfile;
        Flow (EvLog ("OAuth: User ID is " ++ interpolate v));
        Flow (EvLog "Step 1: Prompting for artist name...");
        Question "Enter artist name: ";
        Flow (EvLog "Step 2: Searching for artist...");
        Search ("artist:" ++ artistName) "US" 10 0])%list,
   Thrown e).
Proof.
  intros C P T A S. rewrite (main_authenticated parse_host w x c C).
  unfold walkthrough, getCurrentUsersProfile, search, prompt.
  rewrite P. simpl. rewrite T, A. simpl.
  change (String "a" (String "r" (String "t" (String "i" (String "s" (String "t"
            (String ":" artistName)))))))
    with ("artist:" ++ artistName).
  now rewrite S.
Qed.

Lemma search_error_propagates_witness :
  ending (main letters_host w_ok
            {| profile_id := fun _ => ApiReturns (Some "smedjan");
               search_items := fun _ _ => ApiThrows (SdkError "429");
               typed_artist := Some "Queen";
               typed_choice := None |}) = Thrown (SdkError "429").
Proof.
  rewrite (search_error_propagates letters_host w_ok _
             (session w_ok (JsObject a_token)) (Some "smedjan") "Queen" (SdkError "429"));
    reflexivity.
Defined.

(** X22.  A request that reaches the process on a connection left open,
    after the promise has been settled, is still answered: a request
    with another code gets status 200 and the success page, and its
    code is dropped, the promise keeping what it had. *)
Theorem later_code_answered_and_dropped
    (parse_host : string -> option string) (s : Listener) (req : IncomingMessage)
    (u : URL.t) (c : string) :
  crashed s = None ->
  promise s <> Unsettled ->
  URL.parse parse_host (fullUrl req) = Some u ->
  URL.get "code" (URL.searchParams u) = Some c ->
  c <> EmptyString ->
  arrive parse_host s (OnOpenConnection req) =
  {| accepting := false;
     promise := promise s;
     crashed := None;
     output := (output s ++
                [EvWriteHead 200 "text/html"; EvEnd success_page; EvServerClose;
                 EvResolve c])%list |}.
Proof.
  intros Hc Hs Hu Hg Hne. unfold arrive, dispatch. rewrite Hc.
  rewrite (requestListener_code parse_host req u c Hu Hg Hne).
  simpl. rewrite (settle_settled _ _ Hs), Hc.
  now rewrite <- !app_assoc.
Qed.

Lemma later_code_answered_and_dropped_witness :
  promise (arrivals letters_host listening
             [OnNewConnection (get_callback "/callback?code=ABC123");
              OnOpenConnection (get_callback "/callback?code=OTHER")]) = Fulfilled "ABC123".
Proof.
  unfold arrivals. simpl fold_left.
  rewrite (later_code_answered_and_dropped letters_host
             (arrive letters_host listening
                (OnNewConnection (get_callback "/callback?code=ABC123")))
             (get_callback "/callback?code=OTHER")
             {| URL.scheme := "http"; URL.host := "localhost";
                URL.port_number := Some 4000%N; URL.query := Some "code=OTHER" |}
             "OTHER");
    try reflexivity; discriminate.
Defined.
